(** * Common/nvrtc_helper.h: runtime compilation of a CUDA source file to a
      cubin, and loading of that cubin into a driver context.

    The two functions of the header, [compileFileToCUBIN] and [loadCUBIN], are
    straight-line sequences of calls into the NVRTC compiler library and the
    CUDA driver library.  They are embedded here as functions in a small
    state-and-exit monad: the state carries the trace of external calls and of
    printed text together with the two output parameters of
    [compileFileToCUBIN]; the outcome says whether the function returned,
    called [exit], or was left abnormally (by an exception that the function
    does not catch, or by the invalid parameter handler of the runtime).  The answers of the
    external libraries, of the file system and of the SDK helper are the fields
    of a [World] record. *)

From Stdlib Require Import ZArith List String Ascii Bool Lia DecimalString.
Import ListNotations.

Local Open Scope Z_scope.
Local Open Scope list_scope.
Local Open Scope string_scope.

(** ** C strings and formatting *)

(** The character ['\x0'] and the one-character buffer holding it. *)
Definition NUL_char : ascii := Ascii.zero.
Definition NUL : string := String NUL_char EmptyString.

(** The line feed of the string literals of the source. *)
Definition LF : string := String "010"%char EmptyString.

(** [strlen]: the number of characters before the first terminator. *)
Fixpoint strlen (s : string) : nat :=
  match s with
  | EmptyString => O
  | String c s' => if Ascii.eqb c NUL_char then O else S (strlen s')
  end.

(** The text a [char*] designates: the characters before the first
    terminator. *)
Fixpoint c_str (s : string) : string :=
  match s with
  | EmptyString => EmptyString
  | String c s' => if Ascii.eqb c NUL_char then EmptyString else String c (c_str s')
  end.

(** The first [n] characters of a string. *)
Definition take (n : nat) (s : string) : string := substring 0 n s.

(** [std::istream::read(buf, n)] on a stream positioned at the beginning. *)
Definition read (n : nat) (contents : string) : string := take n contents.

(** A C [int]: 32 bits, two's complement. *)
Definition int_of_Z (z : Z) : Z := (z + 2 ^ 31) mod 2 ^ 32 - 2 ^ 31.

(** The conversion [%d] of the printf family. *)
Definition fmt_d (z : Z) : string := NilZero.string_of_int (Z.to_int z).

(** [snprintf(buf, n, "%s...", ...)] where the formatted text is [s]: at most
    [n - 1] characters are stored, followed by a terminator.  Both call sites
    of the source pass a size of at least 15. *)
Definition snprintf (n : nat) (s : string) : string := take (Nat.pred n) s.

(** [sprintf_s(buf, n, "%s...", ...)]: the text is stored when it fits with
    its terminator; otherwise the invalid parameter handler is invoked. *)
Definition sprintf_s (n : nat) (s : string) : option string :=
  if Nat.ltb (String.length s) n then Some s else None.

(** [std::string::find]: position of the first occurrence. *)
Definition find (needle : string) (s : string) : option nat := index 0 needle s.

(** [std::string::erase(pos)]: keeps the first [pos] characters. *)
Definition erase (pos : nat) (s : string) : string := take pos s.

(** ** Types of the external libraries *)

Definition nvrtcResult := Z.
Definition NVRTC_SUCCESS : nvrtcResult := 0.

Definition CUresult := Z.
Definition CUDA_SUCCESS : CUresult := 0.

Definition CUdevice := Z.
Definition CUcontext := Z.
Definition CUmodule := Z.

Inductive CUdevice_attribute : Type :=
| CU_DEVICE_ATTRIBUTE_COMPUTE_CAPABILITY_MAJOR
| CU_DEVICE_ATTRIBUTE_COMPUTE_CAPABILITY_MINOR.

(** What an [nvrtcProgram] handle stands for: the source text and name given
    at creation, and the options of the last compilation. *)
Record nvrtcProgram : Type := mkProgram {
  prog_src : string;
  prog_name : string;
  prog_options : option (list string)
}.

(** [EXIT_FAILURE] of <cstdlib>. *)
Definition EXIT_FAILURE : Z := 1.

(** ** The external world *)

Record World : Type := mkWorld {
  (** which branch of the [WIN32] conditionals is compiled *)
  win32 : bool;
  (** contents of the file when it can be opened; a file that opens is taken
      to be readable: the source does not check [tellg], [new] or [read]
      (lines 72-78), and a name that opens but cannot be read is outside this
      model *)
  w_open : string -> option string;
  (** [sdkFindFilePath(name, executable_path)], [None] for a null result *)
  w_sdkFindFilePath : string -> option string -> option string;
  (** device selection from the argument list *)
  w_findCudaDeviceDRV : list string -> CUresult * CUdevice;
  w_cuDeviceGetAttribute : CUdevice_attribute -> CUdevice -> CUresult * Z;
  w_cuDeviceGetName : CUdevice -> CUresult * string;
  w_cuInit : Z -> CUresult;
  w_cuCtxCreate : Z -> CUdevice -> CUresult * CUcontext;
  w_cuModuleLoadData : CUcontext -> string -> CUresult * CUmodule;
  (** text printed for a failed driver call *)
  w_driverDiagnostic : CUresult -> string;
  w_nvrtcCreateProgram : string -> string -> nvrtcResult;
  w_nvrtcCompileProgram : nvrtcProgram -> list string -> nvrtcResult;
  w_nvrtcGetProgramLogSize : nvrtcProgram -> nvrtcResult;
  w_nvrtcGetProgramLog : nvrtcProgram -> nvrtcResult;
  (** the log of the last compilation, with its trailing terminator *)
  w_programLog : nvrtcProgram -> string;
  w_nvrtcGetCUBINSize : nvrtcProgram -> nvrtcResult;
  w_nvrtcGetCUBIN : nvrtcProgram -> nvrtcResult;
  (** the binary of the last compilation *)
  w_cubin : nvrtcProgram -> string;
  w_nvrtcGetErrorString : nvrtcResult -> string
}.

(** ** Traces *)

Inductive NvrtcCall : Type :=
| CreateProgram (src name : string)
| CompileProgram (prog : nvrtcProgram) (numOptions : nat) (options : list string)
| GetProgramLogSize (prog : nvrtcProgram)
| GetProgramLog (prog : nvrtcProgram)
| GetCUBINSize (prog : nvrtcProgram)
| GetCUBIN (prog : nvrtcProgram).

Inductive DrvCall : Type :=
| FindCudaDevice (selected : CUdevice)
| DeviceGetAttribute (attr : CUdevice_attribute) (dev : CUdevice)
| DeviceGetName (dev : CUdevice)
| Init (flags : Z)
| CtxCreate (flags : Z) (dev : CUdevice)
| ModuleLoadData (image : string).

Inductive Buffer : Type :=
| Buf_log
| Buf_compileParams (i : nat)
| Buf_cubin.

Inductive Event : Type :=
| Cerr (text : string)
| Cout (text : string)
| Open (filename : string) (opened : bool)
| FindFilePath (name : string) (exe : option string) (found : option string)
| Drv (c : DrvCall) (r : CUresult)
| Nvrtc (c : NvrtcCall) (r : nvrtcResult)
| NvrtcGetErrorString (r : nvrtcResult)
| Free (b : Buffer).

(** ** The monad: state, and an outcome that may be a process exit *)

Record State : Type := mkState {
  trace : list Event;
  cubinResult : option string;
  cubinResultSize : option nat
}.

Definition initial : State :=
  {| trace := []; cubinResult := None; cubinResultSize := None |}.

(** How control leaves the function.  [Returned]: it returns to its caller.
    [Exited]: it calls [exit].  [Aborted]: it is left by an exception it does
    not catch, or through the invalid parameter handler of [sprintf_s]; the
    trace then holds what the function itself did up to that point, and what
    the caller or the runtime does next ([std::terminate] and its message, a
    handler of the caller) is outside the model. *)
Inductive Outcome (A : Type) : Type :=
| Returned (a : A)
| Exited (status : Z)
| Aborted.

Arguments Returned {A} a.
Arguments Exited {A} status.
Arguments Aborted {A}.

Definition Run (A : Type) : Type := State -> Outcome A * State.

Definition ret {A : Type} (a : A) : Run A := fun s => (Returned a, s).

Definition bind {A B : Type} (m : Run A) (k : A -> Run B) : Run B :=
  fun s =>
    match m s with
    | (Returned a, s') => k a s'
    | (Exited n, s') => (Exited n, s')
    | (Aborted, s') => (Aborted, s')
    end.

Declare Scope run_scope.
Delimit Scope run_scope with run.
Notation "x <- m ;; k" := (bind m (fun x => k))
  (at level 100, m at next level, right associativity) : run_scope.
Notation "' pat <- m ;; k" := (bind m (fun x => match x with pat => k end))
  (at level 100, pat pattern, m at next level, right associativity) : run_scope.
Notation "m ;; k" := (bind m (fun _ => k))
  (at level 100, right associativity) : run_scope.
Local Open Scope run_scope.

Definition emit (e : Event) : Run unit :=
  fun s => (Returned tt,
            {| trace := (trace s ++ [e])%list;
               cubinResult := cubinResult s;
               cubinResultSize := cubinResultSize s |}).

Definition exit {A : Type} (status : Z) : Run A := fun s => (Exited status, s).

Definition abort {A : Type} : Run A := fun s => (Aborted, s).

Definition set_cubinResult (code : string) : Run unit :=
  fun s => (Returned tt,
            {| trace := trace s;
               cubinResult := Some code;
               cubinResultSize := cubinResultSize s |}).

Definition set_cubinResultSize (n : nat) : Run unit :=
  fun s => (Returned tt,
            {| trace := trace s;
               cubinResult := cubinResult s;
               cubinResultSize := Some n |}).

Fixpoint for_each {A : Type} (l : list A) (body : A -> Run unit) : Run unit :=
  match l with
  | [] => ret tt
  | a :: l' => body a ;; for_each l' body
  end.

(** ** The program *)

Section Program.

Variable w : World.

(** *** External calls, each recorded in the trace *)

Definition ifstream_open (filename : string) : Run (option string) :=
  let f := w_open w filename in
  emit (Open filename (match f with Some _ => true | None => false end)) ;;
  ret f.

Definition sdkFindFilePath (name : string) (exe : option string)
  : Run (option string) :=
  let r := w_sdkFindFilePath w name exe in
  emit (FindFilePath name exe r) ;;
  ret r.

Definition cuDeviceGetAttribute (attr : CUdevice_attribute) (dev : CUdevice)
  : Run (CUresult * Z) :=
  let '(r, v) := w_cuDeviceGetAttribute w attr dev in
  emit (Drv (DeviceGetAttribute attr dev) r) ;;
  ret (r, int_of_Z v).

Definition cuDeviceGetName (dev : CUdevice) : Run (CUresult * string) :=
  let '(r, name) := w_cuDeviceGetName w dev in
  emit (Drv (DeviceGetName dev) r) ;;
  ret (r, name).

Definition cuInit (flags : Z) : Run (CUresult * unit) :=
  let r := w_cuInit w flags in
  emit (Drv (Init flags) r) ;;
  ret (r, tt).

Definition cuCtxCreate (flags : Z) (dev : CUdevice) : Run (CUresult * CUcontext) :=
  let '(r, ctx) := w_cuCtxCreate w flags dev in
  emit (Drv (CtxCreate flags dev) r) ;;
  ret (r, ctx).

Definition cuModuleLoadData (ctx : CUcontext) (image : string)
  : Run (CUresult * CUmodule) :=
  let '(r, m) := w_cuModuleLoadData w ctx image in
  emit (Drv (ModuleLoadData image) r) ;;
  ret (r, m).

Definition nvrtcCreateProgram (src name : string)
  : Run (nvrtcResult * nvrtcProgram) :=
  let r := w_nvrtcCreateProgram w src name in
  emit (Nvrtc (CreateProgram src name) r) ;;
  ret (r, {| prog_src := src; prog_name := name; prog_options := None |}).

Definition nvrtcCompileProgram (prog : nvrtcProgram) (numOptions : nat)
  (options : list string) : Run (nvrtcResult * nvrtcProgram) :=
  let seen := firstn numOptions options in
  let r := w_nvrtcCompileProgram w prog seen in
  emit (Nvrtc (CompileProgram prog numOptions seen) r) ;;
  ret (r, {| prog_src := prog_src prog; prog_name := prog_name prog;
             prog_options := Some seen |}).

(** The size reported is the size of the log the library stores, its
    trailing terminator included. *)
Definition nvrtcGetProgramLogSize (prog : nvrtcProgram)
  : Run (nvrtcResult * nat) :=
  let r := w_nvrtcGetProgramLogSize w prog in
  emit (Nvrtc (GetProgramLogSize prog) r) ;;
  ret (r, String.length (w_programLog w prog)).

Definition nvrtcGetProgramLog (prog : nvrtcProgram)
  : Run (nvrtcResult * string) :=
  let r := w_nvrtcGetProgramLog w prog in
  emit (Nvrtc (GetProgramLog prog) r) ;;
  ret (r, w_programLog w prog).

Definition nvrtcGetCUBINSize (prog : nvrtcProgram) : Run (nvrtcResult * nat) :=
  let r := w_nvrtcGetCUBINSize w prog in
  emit (Nvrtc (GetCUBINSize prog) r) ;;
  ret (r, String.length (w_cubin w prog)).

Definition nvrtcGetCUBIN (prog : nvrtcProgram) : Run (nvrtcResult * string) :=
  let r := w_nvrtcGetCUBIN w prog in
  emit (Nvrtc (GetCUBIN prog) r) ;;
  ret (r, w_cubin w prog).

Definition nvrtcGetErrorString (r : nvrtcResult) : Run string :=
  emit (NvrtcGetErrorString r) ;;
  ret (w_nvrtcGetErrorString w r).

(** *** The macro of the header *)

Definition NVRTC_SAFE_CALL {A : Type} (Name : string)
  (x : Run (nvrtcResult * A)) : Run A :=
  '(result, a) <- x ;;
  if negb (result =? NVRTC_SUCCESS)%Z then
    msg <- nvrtcGetErrorString result ;;
    emit (Cerr (LF ++ "error: " ++ Name ++ " failed with error " ++ msg)) ;;
    exit 1
  else ret a.

(** *** Helpers of helper_cuda_drvapi.h *)

(** Modelled from the spec: [checkCudaErrors] is a macro of
    helper_cuda_drvapi.h, which is not among the sources.  The spec says that
    a driver error is handled by printing a diagnostic and terminating the
    process immediately. *)
Definition checkCudaErrors {A : Type} (x : Run (CUresult * A)) : Run A :=
  '(err, a) <- x ;;
  if negb (err =? CUDA_SUCCESS)%Z then
    emit (Cerr (w_driverDiagnostic w err)) ;;
    exit EXIT_FAILURE
  else ret a.

(** Modelled from the spec: [findCudaDeviceDRV] is a function of
    helper_cuda_drvapi.h, which is not among the sources.  The spec says that
    the argument list is used for device selection, a call into the driver
    library whose failure prints a diagnostic and terminates the process. *)
Definition findCudaDeviceDRV (argv : list string) : Run CUdevice :=
  checkCudaErrors
    (let '(r, dev) := w_findCudaDeviceDRV w argv in
     emit (Drv (FindCudaDevice dev) r) ;;
     ret (r, dev)).

(** [argv[0]], null when the argument list is empty. *)
Definition argv0 (argv : list string) : option string := hd_error argv.

(** [%s] applied to a possibly null pointer. *)
Definition fmt_s (p : option string) : string :=
  match p with
  | Some s => s
  | None => "(null)"
  end.

(** *** compileFileToCUBIN *)

(** The conditional blocks of the source, [sprintf_s(buf, size_windows, ...)]
    under [WIN32] and [snprintf(buf, size_other, ...)] otherwise, where the
    formatted text is [text]: the string left in the buffer, [None] when the
    invalid parameter handler of [sprintf_s] is invoked. *)
Definition format_buffer (size_windows size_other : nat) (text : string)
  : option string :=
  if win32 w then sprintf_s size_windows text
  else Some (snprintf size_other text).

Definition store_formatted (size_windows size_other : nat) (text : string)
  : Run string :=
  match format_buffer size_windows size_other text with
  | Some p => ret p
  | None => abort
  end.

(** Lines 98-112: the architecture option. *)
Definition arch_option (major minor : Z) : Run string :=
  let compileOptions := "--gpu-architecture=sm_" in
  store_formatted (String.length compileOptions + 10)
                  (String.length compileOptions + 10)
                  (compileOptions ++ fmt_d major ++ fmt_d minor).

(** Lines 116-154: the include-path option. *)
Definition include_option (argv : list string) : Run string :=
  HeaderNames <- store_formatted 256 256 "cooperative_groups.h" ;;
  let compileOptions := "--include-path=" in
  strPath <- sdkFindFilePath HeaderNames (argv0 argv) ;;
  match strPath with
  | None =>
      emit (Cerr (LF ++ "error: header file " ++ HeaderNames ++ " not found!" ++ LF)) ;;
      exit 1
  | Some path =>
      path <-
        (if negb (Nat.eqb (String.length path) 0) then
           match find HeaderNames path with
           | Some found => ret (erase found path)
           | None => abort
           end
         else
           emit (Cout (LF ++ "CooperativeGroups headers not found, please install it in "
                         ++ fmt_s (argv0 argv) ++ " sample directory.." ++ LF
                         ++ " Exiting.." ++ LF)) ;;
           exit 1) ;;
      let compileOptions := compileOptions ++ path in
      store_formatted (String.length compileOptions + 1)
                      (String.length compileOptions)
                      compileOptions
  end.

Definition compileFileToCUBIN (filename : option string) (argv : list string)
  (requiresCGheaders : Z) : Run unit :=
  match filename with
  | None =>
      emit (Cerr (LF ++ "error: filename is empty for compileFileToCUBIN()!" ++ LF)) ;;
      exit 1
  | Some filename =>
      inputFile <- ifstream_open filename ;;
      match inputFile with
      | None =>
          emit (Cerr (LF ++ "error: unable to open " ++ filename ++ " for reading!" ++ LF)) ;;
          exit 1
      | Some contents =>
          let inputSize := String.length contents in
          let memBlock := read inputSize contents ++ NUL in
          let numCompileOptions := O in
          let compileParams : list string := [] in
          cuDevice <- findCudaDeviceDRV argv ;;
          major <- checkCudaErrors
                     (cuDeviceGetAttribute CU_DEVICE_ATTRIBUTE_COMPUTE_CAPABILITY_MAJOR cuDevice) ;;
          minor <- checkCudaErrors
                     (cuDeviceGetAttribute CU_DEVICE_ATTRIBUTE_COMPUTE_CAPABILITY_MINOR cuDevice) ;;
          p <- arch_option major minor ;;
          let compileParams := (compileParams ++ [p])%list in
          let numCompileOptions := S numCompileOptions in
          '(numCompileOptions, compileParams) <-
            (if negb (requiresCGheaders =? 0)%Z then
               p <- include_option argv ;;
               ret (S numCompileOptions, (compileParams ++ [p])%list)
             else ret (numCompileOptions, compileParams)) ;;
          prog <- NVRTC_SAFE_CALL "nvrtcCreateProgram"
                    (nvrtcCreateProgram memBlock filename) ;;
          '(res, prog) <- nvrtcCompileProgram prog numCompileOptions compileParams ;;
          logSize <- NVRTC_SAFE_CALL "nvrtcGetProgramLogSize"
                       (nvrtcGetProgramLogSize prog) ;;
          log <- NVRTC_SAFE_CALL "nvrtcGetProgramLog" (nvrtcGetProgramLog prog) ;;
          let log := take logSize log ++ NUL in
          (if Nat.leb 2 (strlen log) then
             emit (Cerr (LF ++ " compilation log ---" ++ LF)) ;;
             emit (Cerr (c_str log)) ;;
             emit (Cerr (LF ++ " end log ---" ++ LF))
           else ret tt) ;;
          emit (Free Buf_log) ;;
          NVRTC_SAFE_CALL "nvrtcCompileProgram" (ret (res, tt)) ;;
          codeSize <- NVRTC_SAFE_CALL "nvrtcGetCUBINSize" (nvrtcGetCUBINSize prog) ;;
          code <- NVRTC_SAFE_CALL "nvrtcGetCUBIN" (nvrtcGetCUBIN prog) ;;
          set_cubinResult code ;;
          set_cubinResultSize codeSize ;;
          for_each (seq 0 numCompileOptions) (fun i => emit (Free (Buf_compileParams i)))
      end
  end.

(** *** loadCUBIN *)

Definition loadCUBIN (cubin : string) (argv : list string) : Run CUmodule :=
  cuDevice <- findCudaDeviceDRV argv ;;
  major <- checkCudaErrors
             (cuDeviceGetAttribute CU_DEVICE_ATTRIBUTE_COMPUTE_CAPABILITY_MAJOR cuDevice) ;;
  minor <- checkCudaErrors
             (cuDeviceGetAttribute CU_DEVICE_ATTRIBUTE_COMPUTE_CAPABILITY_MINOR cuDevice) ;;
  deviceName <- checkCudaErrors (cuDeviceGetName cuDevice) ;;
  emit (Cout ("> GPU Device has SM " ++ fmt_d major ++ "." ++ fmt_d minor
                ++ " compute capability" ++ LF)) ;;
  checkCudaErrors (cuInit 0) ;;
  context <- checkCudaErrors (cuCtxCreate 0 cuDevice) ;;
  module <- checkCudaErrors (cuModuleLoadData context cubin) ;;
  emit (Free Buf_cubin) ;;
  ret module.

End Program.

(** ** Observations on traces *)

(** A call that reports success or failure: a file opening, a lookup, a
    driver call or a compiler call.  [nvrtcGetErrorString] reports neither and
    is not counted here; the statements on failures name it on its own. *)
Definition is_call (e : Event) : bool :=
  match e with
  | Open _ _ | FindFilePath _ _ _ | Drv _ _ | Nvrtc _ _ => true
  | _ => false
  end.

(** The call failed: the file could not be opened, or the library returned a
    result other than success. *)
Definition failed (e : Event) : bool :=
  match e with
  | Open _ opened => negb opened
  | Drv _ r => negb (r =? CUDA_SUCCESS)%Z
  | Nvrtc _ r => negb (r =? NVRTC_SUCCESS)%Z
  | _ => false
  end.

Definition is_failed_compile (e : Event) : bool :=
  match e with
  | Nvrtc (CompileProgram _ _ _) r => negb (r =? NVRTC_SUCCESS)%Z
  | _ => false
  end.

Definition is_log_fetch (e : Event) : bool :=
  match e with
  | Nvrtc (GetProgramLogSize _) _ | Nvrtc (GetProgramLog _) _ => true
  | _ => false
  end.

Definition is_GetProgramLog (e : Event) : bool :=
  match e with
  | Nvrtc (GetProgramLog _) _ => true
  | _ => false
  end.

(** No call follows a failed call. *)
Fixpoint no_call_after_failure (tr : list Event) : bool :=
  match tr with
  | [] => true
  | e :: tr' =>
      (if failed e then negb (existsb is_call tr') else true)
      && no_call_after_failure tr'
  end.

(** The only calls that follow a failed call are the two log fetches that
    follow a failed compilation. *)
Fixpoint only_log_fetch_after_failure (tr : list Event) : bool :=
  match tr with
  | [] => true
  | e :: tr' =>
      (if failed e
       then forallb (fun e' => negb (is_call e') || (is_failed_compile e && is_log_fetch e')) tr'
       else true)
      && only_log_fetch_after_failure tr'
  end.

(** The last thing the run did was to write to standard error. *)
Definition ends_with_Cerr (tr : list Event) : bool :=
  match last tr (Free Buf_log) with
  | Cerr _ => true
  | _ => false
  end.

(** The trace cut at its first event satisfying [p]. *)
Fixpoint split_at (p : Event -> bool) (tr : list Event)
  : option (list Event * Event * list Event) :=
  match tr with
  | [] => None
  | e :: tr' =>
      if p e then Some ([], e, tr')
      else match split_at p tr' with
           | Some (before, x, after) => Some (e :: before, x, after)
           | None => None
           end
  end.

(** The entry points of the compiler library. *)
Inductive NvrtcApi : Type :=
| API_nvrtcCreateProgram
| API_nvrtcCompileProgram
| API_nvrtcGetProgramLogSize
| API_nvrtcGetProgramLog
| API_nvrtcGetCUBINSize
| API_nvrtcGetCUBIN
| API_nvrtcGetErrorString.

Definition api_of (c : NvrtcCall) : NvrtcApi :=
  match c with
  | CreateProgram _ _ => API_nvrtcCreateProgram
  | CompileProgram _ _ _ => API_nvrtcCompileProgram
  | GetProgramLogSize _ => API_nvrtcGetProgramLogSize
  | GetProgramLog _ => API_nvrtcGetProgramLog
  | GetCUBINSize _ => API_nvrtcGetCUBINSize
  | GetCUBIN _ => API_nvrtcGetCUBIN
  end.

(** Every call into the compiler library, in the order of the trace. *)
Fixpoint nvrtc_calls (tr : list Event) : list NvrtcApi :=
  match tr with
  | [] => []
  | Nvrtc c _ :: tr' => api_of c :: nvrtc_calls tr'
  | NvrtcGetErrorString _ :: tr' => API_nvrtcGetErrorString :: nvrtc_calls tr'
  | _ :: tr' => nvrtc_calls tr'
  end.

(** The sequence of the source, lines 159-189. *)
Definition pipeline : list NvrtcApi :=
  [API_nvrtcCreateProgram; API_nvrtcCompileProgram;
   API_nvrtcGetProgramLogSize; API_nvrtcGetProgramLog;
   API_nvrtcGetCUBINSize; API_nvrtcGetCUBIN].

Definition is_free_cubin (e : Event) : bool :=
  match e with
  | Free Buf_cubin => true
  | _ => false
  end.

(** The options of the compilation call of a trace. *)
Fixpoint compile_options (tr : list Event) : option (list string) :=
  match tr with
  | [] => None
  | Nvrtc (CompileProgram _ _ options) _ :: _ => Some options
  | _ :: tr' => compile_options tr'
  end.

(** The name of each entry point, as [NVRTC_SAFE_CALL] is given it. *)
Definition api_name (a : NvrtcApi) : string :=
  match a with
  | API_nvrtcCreateProgram => "nvrtcCreateProgram"
  | API_nvrtcCompileProgram => "nvrtcCompileProgram"
  | API_nvrtcGetProgramLogSize => "nvrtcGetProgramLogSize"
  | API_nvrtcGetProgramLog => "nvrtcGetProgramLog"
  | API_nvrtcGetCUBINSize => "nvrtcGetCUBINSize"
  | API_nvrtcGetCUBIN => "nvrtcGetCUBIN"
  | API_nvrtcGetErrorString => "nvrtcGetErrorString"
  end.

(** The diagnostic of [NVRTC_SAFE_CALL] for the entry point [a] and the
    result [r]. *)
Definition nvrtc_diagnostic (w : World) (a : NvrtcApi) (r : nvrtcResult) : string :=
  LF ++ "error: " ++ api_name a ++ " failed with error " ++ w_nvrtcGetErrorString w r.

Definition is_free (e : Event) : bool :=
  match e with
  | Free _ => true
  | _ => false
  end.

Definition is_Cerr (e : Event) : bool :=
  match e with
  | Cerr _ => true
  | _ => false
  end.

Definition is_print (e : Event) : bool :=
  match e with
  | Cerr _ | Cout _ => true
  | _ => false
  end.

Definition is_CompileProgram (e : Event) : bool :=
  match e with
  | Nvrtc (CompileProgram _ _ _) _ => true
  | _ => false
  end.

(** A failed call other than the compilation. *)
Definition failed_other (e : Event) : bool :=
  failed e && negb (is_failed_compile e).

(** What the handle stands for once the program has been compiled with
    [opts]. *)
Definition compiled (p : nvrtcProgram) (opts : list string) : nvrtcProgram :=
  {| prog_src := prog_src p; prog_name := prog_name p; prog_options := Some opts |}.

(** Lines 174-178: what is written of the log of [prog]. *)
Definition log_block (w : World) (prog : nvrtcProgram) : list Event :=
  if Nat.leb 2 (strlen (w_programLog w prog ++ NUL))
  then [Cerr (LF ++ " compilation log ---" ++ LF);
        Cerr (c_str (w_programLog w prog ++ NUL));
        Cerr (LF ++ " end log ---" ++ LF)]
  else [].

(** ** Sample worlds

    A machine on which every call succeeds, parameterised by the platform, the
    compute capability of the device, the results of program creation and of
    compilation, the compilation log and the SDK's file lookup. *)

Definition sample_world (windows : bool) (major minor : Z)
  (create_result compile_result : nvrtcResult) (log : string)
  (lookup : string -> option string -> option string) : World :=
  {| win32 := windows;
     w_open := fun f =>
       if String.eqb f "kernel.cu" then Some "__global__ void k(){}" else None;
     w_sdkFindFilePath := lookup;
     w_findCudaDeviceDRV := fun _ => (CUDA_SUCCESS, 0);
     w_cuDeviceGetAttribute := fun attr _ =>
       match attr with
       | CU_DEVICE_ATTRIBUTE_COMPUTE_CAPABILITY_MAJOR => (CUDA_SUCCESS, major)
       | CU_DEVICE_ATTRIBUTE_COMPUTE_CAPABILITY_MINOR => (CUDA_SUCCESS, minor)
       end;
     w_cuDeviceGetName := fun _ => (CUDA_SUCCESS, "GPU");
     w_cuInit := fun _ => CUDA_SUCCESS;
     w_cuCtxCreate := fun _ _ => (CUDA_SUCCESS, 1);
     w_cuModuleLoadData := fun _ _ => (CUDA_SUCCESS, 7);
     w_driverDiagnostic := fun _ => "CUDA driver error";
     w_nvrtcCreateProgram := fun _ _ => create_result;
     w_nvrtcCompileProgram := fun _ _ => compile_result;
     w_nvrtcGetProgramLogSize := fun _ => NVRTC_SUCCESS;
     w_nvrtcGetProgramLog := fun _ => NVRTC_SUCCESS;
     w_programLog := fun _ => log ++ NUL;
     w_nvrtcGetCUBINSize := fun _ => NVRTC_SUCCESS;
     w_nvrtcGetCUBIN := fun _ => NVRTC_SUCCESS;
     w_cubin := fun _ => "ELF";
     w_nvrtcGetErrorString := fun _ => "NVRTC_ERROR_COMPILATION" |}.

(** The SDK finds the header under [./Common/]. *)
Definition lookup_common (name : string) (exe : option string) : option string :=
  Some ("./Common/" ++ name).

(** The SDK finds the header in the data directory named after the
    executable. *)
Definition lookup_data_files (name : string) (exe : option string) : option string :=
  match exe with
  | Some e => Some ("./" ++ e ++ "_data_files/" ++ name)
  | None => None
  end.

(** The program the sample worlds are asked to compile, as created from
    [kernel.cu]. *)
Definition kernel_program : nvrtcProgram :=
  {| prog_src := "__global__ void k(){}" ++ NUL;
     prog_name := "kernel.cu";
     prog_options := None |}.

(** The same program once compiled for the sample device without the
    include-path option. *)
Definition kernel_compiled : nvrtcProgram :=
  {| prog_src := "__global__ void k(){}" ++ NUL;
     prog_name := "kernel.cu";
     prog_options := Some ["--gpu-architecture=sm_86"] |}.

Definition sm86 : World :=
  sample_world false 8 6 NVRTC_SUCCESS NVRTC_SUCCESS "" lookup_common.

Definition sm86_windows : World :=
  sample_world true 8 6 NVRTC_SUCCESS NVRTC_SUCCESS "" lookup_common.

(** Compilation fails (result 6) and leaves a log. *)
Definition sm86_compile_error : World :=
  sample_world false 8 6 NVRTC_SUCCESS 6 "kernel.cu(1): error: expected a ;" lookup_common.

(** Program creation fails (result 2). *)
Definition sm86_create_error : World :=
  sample_world false 8 6 2 NVRTC_SUCCESS "" lookup_common.

(** Compilation succeeds and leaves a warning in the log. *)
Definition sm86_warning : World :=
  sample_world false 8 6 NVRTC_SUCCESS NVRTC_SUCCESS
    "kernel.cu(3): warning: variable was declared but never referenced"
    lookup_common.

(** The header lookup depends on the path of the executable. *)
Definition sm86_data_files : World :=
  sample_world false 8 6 NVRTC_SUCCESS NVRTC_SUCCESS "" lookup_data_files.

(** The SDK does not find the header. *)
Definition sm86_no_header : World :=
  sample_world false 8 6 NVRTC_SUCCESS NVRTC_SUCCESS "" (fun _ _ => None).

(** The SDK answers with an empty path. *)
Definition sm86_empty_path : World :=
  sample_world false 8 6 NVRTC_SUCCESS NVRTC_SUCCESS "" (fun _ _ => Some "").

(** The SDK answers with a path that does not hold the name it was asked
    for. *)
Definition sm86_other_header : World :=
  sample_world false 8 6 NVRTC_SUCCESS NVRTC_SUCCESS ""
    (fun _ _ => Some "./Common/helper_cuda.h").

(** The world [w] where the query of the log size fails with [r]. *)
Definition with_log_size_result (r : nvrtcResult) (w : World) : World :=
  {| win32 := win32 w;
     w_open := w_open w;
     w_sdkFindFilePath := w_sdkFindFilePath w;
     w_findCudaDeviceDRV := w_findCudaDeviceDRV w;
     w_cuDeviceGetAttribute := w_cuDeviceGetAttribute w;
     w_cuDeviceGetName := w_cuDeviceGetName w;
     w_cuInit := w_cuInit w;
     w_cuCtxCreate := w_cuCtxCreate w;
     w_cuModuleLoadData := w_cuModuleLoadData w;
     w_driverDiagnostic := w_driverDiagnostic w;
     w_nvrtcCreateProgram := w_nvrtcCreateProgram w;
     w_nvrtcCompileProgram := w_nvrtcCompileProgram w;
     w_nvrtcGetProgramLogSize := fun _ => r;
     w_nvrtcGetProgramLog := w_nvrtcGetProgramLog w;
     w_programLog := w_programLog w;
     w_nvrtcGetCUBINSize := w_nvrtcGetCUBINSize w;
     w_nvrtcGetCUBIN := w_nvrtcGetCUBIN w;
     w_cubin := w_cubin w;
     w_nvrtcGetErrorString := fun x =>
       if (x =? 6)%Z then "NVRTC_ERROR_COMPILATION" else "NVRTC_ERROR_INVALID_PROGRAM" |}.

(** Compilation fails (result 6) and so does the query of the log size
    (result 4). *)
Definition sm86_compile_and_log_error : World :=
  with_log_size_result 4 sm86_compile_error.

(** A result cannot be both success and not success. *)
Ltac contradict_result :=
  match goal with
  | H : ?x = NVRTC_SUCCESS, H' : (?x =? NVRTC_SUCCESS)%Z = false |- _ =>
      rewrite H in H'; discriminate H'
  | H : ?x = CUDA_SUCCESS, H' : (?x =? CUDA_SUCCESS)%Z = false |- _ =>
      rewrite H in H'; discriminate H'
  end.

(** The name of the header fits its buffer of 256 characters on either
    platform. *)
Lemma HeaderNames_stored (w : World) :
  format_buffer w 256 256 "cooperative_groups.h" = Some "cooperative_groups.h".
Proof.
  unfold format_buffer. destruct (win32 w); reflexivity.
Qed.

(** ** Proof automation: case analysis on the answers of the world *)

Ltac break_match :=
  match goal with
  | |- context [match ?x with _ => _ end] =>
      lazymatch x with
      | context [match _ with _ => _ end] => fail
      | _ => destruct x eqn:?
      end
  end.

Ltac unfold_program :=
  cbv [compileFileToCUBIN loadCUBIN arch_option include_option store_formatted
       NVRTC_SAFE_CALL checkCudaErrors findCudaDeviceDRV ifstream_open
       sdkFindFilePath cuDeviceGetAttribute cuDeviceGetName cuInit cuCtxCreate
       cuModuleLoadData nvrtcCreateProgram nvrtcCompileProgram
       nvrtcGetProgramLogSize nvrtcGetProgramLog nvrtcGetCUBINSize
       nvrtcGetCUBIN nvrtcGetErrorString read
       bind ret emit exit abort set_cubinResult set_cubinResultSize initial
       trace cubinResult cubinResultSize prog_src prog_name];
  change (String.length "--gpu-architecture=sm_" + 10)%nat with 32%nat;
  rewrite ?HeaderNames_stored.

Ltac simpl_run :=
  cbn [negb trace cubinResult cubinResultSize fst snd for_each seq bind ret
       emit app firstn].

Ltac run_cases := unfold_program; repeat (break_match; simpl_run).

(** Results known to be success are replaced by the constant. *)
Ltac know_results :=
  repeat match goal with
    | H : negb (?x =? ?c)%Z = false |- _ =>
        apply negb_false_iff, Z.eqb_eq in H;
        first [ subst x | rewrite ?H in * ]
    | H : negb (?x =? ?c)%Z = true |- _ =>
        apply negb_true_iff in H
    end.

(** Destructs a membership in an explicit trace. *)
Ltac in_trace H :=
  cbn [In] in H;
  repeat (destruct H as [H|H]; try discriminate H);
  try contradiction.

(** Settles the nested cases of a statement on the shape of a trace. *)
Ltac shape :=
  repeat first
    [ contradict_result
    | reflexivity
    | match goal with
      | |- _ /\ _ => split
      | |- _ -> _ => intro
      | |- exists _, _ => eexists
      end
    | congruence ].

(** ** The formatting functions on small inputs *)

Example strlen_stops_at_terminator : strlen ("ab" ++ NUL ++ "cd") = 2%nat.
Proof. reflexivity. Qed.

Example c_str_stops_at_terminator : c_str ("ab" ++ NUL ++ "cd") = "ab".
Proof. reflexivity. Qed.

Example fmt_d_examples :
  fmt_d 8 = "8" /\ fmt_d 0 = "0" /\ fmt_d 12 = "12" /\ fmt_d (-1) = "-1".
Proof. repeat split. Qed.

Example int_of_Z_examples :
  int_of_Z 8 = 8 /\ int_of_Z (2 ^ 31) = - 2 ^ 31 /\ int_of_Z (-1) = -1.
Proof. repeat split. Qed.

Example snprintf_keeps_size_minus_one : snprintf 4 "abcdef" = "abc".
Proof. reflexivity. Qed.

Example snprintf_room_enough : snprintf 32 "--gpu-architecture=sm_86" = "--gpu-architecture=sm_86".
Proof. reflexivity. Qed.

Example sprintf_s_examples :
  sprintf_s 4 "abc" = Some "abc" /\ sprintf_s 3 "abc" = None.
Proof. split; reflexivity. Qed.

Example find_and_erase :
  find "cooperative_groups.h" "./Common/cooperative_groups.h" = Some 9%nat /\
  erase 9 "./Common/cooperative_groups.h" = "./Common/" /\
  find "cooperative_groups.h" "./Common/helper.h" = None.
Proof. repeat split. Qed.

(** The options of the sample machine, without and with [WIN32]. *)
Example options_on_sample_machine :
  compile_options
    (trace (snd (compileFileToCUBIN sm86 (Some "kernel.cu") ["sample"] 1 initial)))
    = Some ["--gpu-architecture=sm_86"; "--include-path=./Common"] /\
  compile_options
    (trace (snd (compileFileToCUBIN sm86_windows (Some "kernel.cu") ["sample"] 1 initial)))
    = Some ["--gpu-architecture=sm_86"; "--include-path=./Common/"].
Proof. split; reflexivity. Qed.

(** A null file name and a missing file end the process before any library
    is called. *)
Example null_and_missing_file :
  compileFileToCUBIN sm86 None ["sample"] 0 initial
    = (Exited 1,
       {| trace := [Cerr (LF ++ "error: filename is empty for compileFileToCUBIN()!" ++ LF)];
          cubinResult := None; cubinResultSize := None |}) /\
  compileFileToCUBIN sm86 (Some "missing.cu") ["sample"] 0 initial
    = (Exited 1,
       {| trace := [Open "missing.cu" false;
                    Cerr (LF ++ "error: unable to open missing.cu for reading!" ++ LF)];
          cubinResult := None; cubinResultSize := None |}).
Proof. split; reflexivity. Qed.

(** ** Lemmas on strings *)

Lemma take_all (s : string) : take (String.length s) s = s.
Proof.
  unfold take.
  induction s as [|c s IH]; cbn.
  - reflexivity.
  - now rewrite IH.
Qed.

Lemma take_ge (s : string) : forall n, (String.length s <= n)%nat -> take n s = s.
Proof.
  unfold take.
  induction s as [|c s IH]; intros [|n] Hn; cbn in *; try reflexivity; try lia.
  rewrite IH by lia. reflexivity.
Qed.

(** A non-empty string is its first [length - 1] characters followed by its
    last character. *)
Lemma take_pred_length (s : string) :
  s <> EmptyString ->
  exists c, s = take (Nat.pred (String.length s)) s ++ String c EmptyString.
Proof.
  unfold take.
  induction s as [|a s IH]; intros Hne; [congruence|].
  destruct s as [|b s].
  - exists a. reflexivity.
  - destruct IH as [c Hc]; [discriminate|].
    exists c. cbn [String.length Nat.pred] in Hc |- *.
    change (substring 0 (S (String.length s)) (String a (String b s)))
      with (String a (substring 0 (String.length s) (String b s))).
    cbn [append]. rewrite <- Hc. reflexivity.
Qed.

Lemma sprintf_s_inv (n : nat) (s p : string) : sprintf_s n s = Some p -> p = s.
Proof.
  unfold sprintf_s. destruct (Nat.ltb _ _); congruence.
Qed.

(** ** The compilation call *)

(** What the trace says when it holds a compilation call: the device was
    selected, its two capability numbers were read, the architecture text was
    stored in its buffer of 32 characters, and the options are that text
    alone, or that text and the stored include-path text. *)
Lemma compile_call_inv w filename argv flag prog n opts r :
  In (Nvrtc (CompileProgram prog n opts) r)
     (trace (snd (compileFileToCUBIN w filename argv flag initial))) ->
  exists dev vmajor vminor arch,
    w_findCudaDeviceDRV w argv = (CUDA_SUCCESS, dev) /\
    w_cuDeviceGetAttribute w CU_DEVICE_ATTRIBUTE_COMPUTE_CAPABILITY_MAJOR dev
      = (CUDA_SUCCESS, vmajor) /\
    w_cuDeviceGetAttribute w CU_DEVICE_ATTRIBUTE_COMPUTE_CAPABILITY_MINOR dev
      = (CUDA_SUCCESS, vminor) /\
    format_buffer w 32 32
      ("--gpu-architecture=sm_" ++ fmt_d (int_of_Z vmajor) ++ fmt_d (int_of_Z vminor))
      = Some arch /\
    n = List.length opts /\
    ((flag = 0 /\ opts = [arch]) \/
     (flag <> 0 /\
      exists path found incl,
        w_sdkFindFilePath w "cooperative_groups.h" (argv0 argv) = Some path /\
        find "cooperative_groups.h" path = Some found /\
        format_buffer w (String.length ("--include-path=" ++ erase found path) + 1)
                        (String.length ("--include-path=" ++ erase found path))
                        ("--include-path=" ++ erase found path) = Some incl /\
        opts = [arch; incl])).
Proof.
  run_cases.
  all: cbn [In]; intros H; repeat (destruct H as [H|H]; try discriminate H);
    try contradiction.
  all: inversion H; subst; clear H; know_results.
  all: repeat match goal with
         | H : (?x =? 0)%Z = true |- _ => apply Z.eqb_eq in H; subst x
         | H : (?x =? 0)%Z = false |- _ => apply Z.eqb_neq in H
         end.
  all: do 4 eexists; repeat (split; [eassumption || reflexivity|]).
  all: first [ left; split; [assumption || reflexivity | reflexivity]
             | right; split; [assumption|];
               do 3 eexists; repeat (split; [eassumption || reflexivity|]); reflexivity ].
Qed.

(** The architecture text keeps its 22 leading characters whatever the
    platform stores of it. *)
Lemma arch_text_shape w (digits arch : string) :
  format_buffer w 32 32 ("--gpu-architecture=sm_" ++ digits) = Some arch ->
  exists tail, arch = "--gpu-architecture=sm_" ++ tail.
Proof.
  unfold format_buffer. destruct (win32 w); intros H.
  - apply sprintf_s_inv in H. subst arch. now exists digits.
  - injection H as <-. exists (take 9 digits). reflexivity.
Qed.

(** When the two numbers take at most nine characters the whole text is
    stored, on either platform. *)
Lemma arch_text_fits w (digits arch : string) :
  format_buffer w 32 32 ("--gpu-architecture=sm_" ++ digits) = Some arch ->
  (String.length digits <= 9)%nat ->
  arch = "--gpu-architecture=sm_" ++ digits.
Proof.
  unfold format_buffer. destruct (win32 w); intros H Hlen.
  - now apply sprintf_s_inv in H.
  - injection H as <-. unfold snprintf.
    apply take_ge. cbn [String.length append Nat.pred]. lia.
Qed.

(** The stored include-path text: the whole text under [WIN32], the text
    without its last character otherwise. *)
Lemma include_text_windows w (text incl : string) :
  win32 w = true ->
  format_buffer w (String.length text + 1) (String.length text) text = Some incl ->
  incl = text.
Proof.
  unfold format_buffer. intros ->. apply sprintf_s_inv.
Qed.

Lemma include_text_other w (dir incl : string) :
  win32 w = false ->
  format_buffer w (String.length ("--include-path=" ++ dir) + 1)
                  (String.length ("--include-path=" ++ dir))
                  ("--include-path=" ++ dir) = Some incl ->
  exists c, "--include-path=" ++ dir = incl ++ String c EmptyString.
Proof.
  unfold format_buffer. intros -> H. injection H as <-.
  unfold snprintf. apply take_pred_length. discriminate.
Qed.

Lemma include_text_shape w (dir incl : string) :
  format_buffer w (String.length ("--include-path=" ++ dir) + 1)
                  (String.length ("--include-path=" ++ dir))
                  ("--include-path=" ++ dir) = Some incl ->
  dir <> EmptyString ->
  exists dir', incl = "--include-path=" ++ dir'.
Proof.
  unfold format_buffer. destruct (win32 w); intros H Hdir.
  - apply sprintf_s_inv in H. subst incl. now exists dir.
  - injection H as <-. destruct dir as [|d dir]; [congruence|].
    exists (take (String.length dir) (String d dir)). reflexivity.
Qed.

(** ** Claims on the compile options and the source text *)

(** C9: the source text handed to [nvrtcCreateProgram] is the whole contents
    of the input file, read from the beginning, followed by one terminator;
    the program is named after the file. *)
Theorem source_text_is_file_contents w filename argv flag src name r :
  In (Nvrtc (CreateProgram src name) r)
     (trace (snd (compileFileToCUBIN w filename argv flag initial))) ->
  exists fname contents,
    filename = Some fname /\
    w_open w fname = Some contents /\
    src = contents ++ NUL /\
    name = fname.
Proof.
  run_cases.
  all: cbn [In]; intros H; repeat (destruct H as [H|H]; try discriminate H);
    try contradiction.
  all: inversion H; subst; rewrite take_all; eauto 10.
Qed.

Lemma source_text_is_file_contents_witness :
  In (Nvrtc (CreateProgram ("__global__ void k(){}" ++ NUL) "kernel.cu") NVRTC_SUCCESS)
     (trace (snd (compileFileToCUBIN sm86 (Some "kernel.cu") ["sample"] 0 initial))) /\
  exists fname contents,
    Some "kernel.cu" = Some fname /\
    w_open sm86 fname = Some contents /\
    "__global__ void k(){}" ++ NUL = contents ++ NUL /\
    "kernel.cu" = fname.
Proof.
  split.
  - vm_compute. auto 10.
  - apply (source_text_is_file_contents sm86 (Some "kernel.cu") ["sample"] 0
             ("__global__ void k(){}" ++ NUL) "kernel.cu" NVRTC_SUCCESS).
    vm_compute. auto 10.
Defined.

(** C3: the first compile option is always present and is what the
    formatting call stores, in its buffer of 32 characters, of
    "--gpu-architecture=sm_" followed by the [%d] renderings of the major and
    minor capability numbers of the selected device.  It is that whole text
    whenever the two renderings take at most nine characters together, which
    covers the capability numbers of every device; beyond that bound
    [snprintf] would keep the first 31 characters. *)
Theorem arch_option_from_device w filename argv flag prog n opts r :
  In (Nvrtc (CompileProgram prog n opts) r)
     (trace (snd (compileFileToCUBIN w filename argv flag initial))) ->
  exists dev vmajor vminor arch rest,
    w_findCudaDeviceDRV w argv = (CUDA_SUCCESS, dev) /\
    w_cuDeviceGetAttribute w CU_DEVICE_ATTRIBUTE_COMPUTE_CAPABILITY_MAJOR dev
      = (CUDA_SUCCESS, vmajor) /\
    w_cuDeviceGetAttribute w CU_DEVICE_ATTRIBUTE_COMPUTE_CAPABILITY_MINOR dev
      = (CUDA_SUCCESS, vminor) /\
    opts = arch :: rest /\
    ((String.length (fmt_d (int_of_Z vmajor) ++ fmt_d (int_of_Z vminor)) <= 9)%nat ->
     arch = "--gpu-architecture=sm_" ++ fmt_d (int_of_Z vmajor) ++ fmt_d (int_of_Z vminor)) /\
    (win32 w = false ->
     arch = take 31 ("--gpu-architecture=sm_"
                       ++ fmt_d (int_of_Z vmajor) ++ fmt_d (int_of_Z vminor))).
Proof.
  intros H.
  destruct (compile_call_inv _ _ _ _ _ _ _ _ H)
    as (dev & vmajor & vminor & arch & Hdev & Hmaj & Hmin & Harch & _ & Hopts).
  assert (Hrest : exists rest, opts = arch :: rest).
  { destruct Hopts as [[_ ->] | [_ (path & found & incl & _ & _ & _ & ->)]]; eauto. }
  destruct Hrest as [rest ->].
  exists dev, vmajor, vminor, arch, rest.
  repeat (split; [assumption || reflexivity|]).
  split.
  - intros Hlen. eapply arch_text_fits; eassumption.
  - intros Hwin. unfold format_buffer in Harch. rewrite Hwin in Harch.
    injection Harch as <-. reflexivity.
Qed.

Lemma arch_option_from_device_witness :
  In (Nvrtc (CompileProgram kernel_program 1 ["--gpu-architecture=sm_86"]) NVRTC_SUCCESS)
     (trace (snd (compileFileToCUBIN sm86 (Some "kernel.cu") ["sample"] 0 initial))) /\
  exists dev vmajor vminor arch rest,
    w_findCudaDeviceDRV sm86 ["sample"] = (CUDA_SUCCESS, dev) /\
    w_cuDeviceGetAttribute sm86 CU_DEVICE_ATTRIBUTE_COMPUTE_CAPABILITY_MAJOR dev
      = (CUDA_SUCCESS, vmajor) /\
    w_cuDeviceGetAttribute sm86 CU_DEVICE_ATTRIBUTE_COMPUTE_CAPABILITY_MINOR dev
      = (CUDA_SUCCESS, vminor) /\
    ["--gpu-architecture=sm_86"] = arch :: rest /\
    ((String.length (fmt_d (int_of_Z vmajor) ++ fmt_d (int_of_Z vminor)) <= 9)%nat ->
     arch = "--gpu-architecture=sm_" ++ fmt_d (int_of_Z vmajor) ++ fmt_d (int_of_Z vminor)) /\
    (win32 sm86 = false ->
     arch = take 31 ("--gpu-architecture=sm_"
                       ++ fmt_d (int_of_Z vmajor) ++ fmt_d (int_of_Z vminor))).
Proof.
  split.
  - vm_compute. auto 10.
  - apply (arch_option_from_device sm86 (Some "kernel.cu") ["sample"] 0
             kernel_program 1%nat ["--gpu-architecture=sm_86"] NVRTC_SUCCESS).
    vm_compute. auto 10.
Defined.

(** C7: the compiler is given exactly one option, the architecture text, when
    [requiresCGheaders] is zero, and exactly two, the architecture text and
    the stored "--include-path=<dir>" text, when it is not; the count passed
    is the number of options. *)
Theorem compile_option_count w filename argv flag prog n opts r :
  In (Nvrtc (CompileProgram prog n opts) r)
     (trace (snd (compileFileToCUBIN w filename argv flag initial))) ->
  n = List.length opts /\
  (flag = 0 ->
   n = 1%nat /\
   exists digits, opts = ["--gpu-architecture=sm_" ++ digits]) /\
  (flag <> 0 ->
   n = 2%nat /\
   exists digits dir incl,
     opts = ["--gpu-architecture=sm_" ++ digits; incl] /\
     format_buffer w (String.length ("--include-path=" ++ dir) + 1)
                     (String.length ("--include-path=" ++ dir))
                     ("--include-path=" ++ dir) = Some incl /\
     (dir <> EmptyString -> exists dir', incl = "--include-path=" ++ dir')).
Proof.
  intros H.
  destruct (compile_call_inv _ _ _ _ _ _ _ _ H)
    as (dev & vmajor & vminor & arch & _ & _ & _ & Harch & Hn & Hopts).
  destruct (arch_text_shape _ _ _ Harch) as [digits ->].
  split; [exact Hn|].
  destruct Hopts as [[Hflag ->] | [Hflag (path & found & incl & _ & _ & Hincl & ->)]];
    subst n; split; intros Hf; try contradiction.
  - split; [reflexivity|]. now exists digits.
  - split; [reflexivity|].
    exists digits, (erase found path), incl.
    repeat split; [exact Hincl|].
    intros Hdir. eapply include_text_shape; eassumption.
Qed.

Lemma compile_option_count_witness :
  In (Nvrtc (CompileProgram kernel_program 2
               ["--gpu-architecture=sm_86"; "--include-path=./Common"]) NVRTC_SUCCESS)
     (trace (snd (compileFileToCUBIN sm86 (Some "kernel.cu") ["sample"] 1 initial))) /\
  2%nat = List.length ["--gpu-architecture=sm_86"; "--include-path=./Common"] /\
  (1 = 0 ->
   2%nat = 1%nat /\
   exists digits,
     ["--gpu-architecture=sm_86"; "--include-path=./Common"]
       = ["--gpu-architecture=sm_" ++ digits]) /\
  (1 <> 0 ->
   2%nat = 2%nat /\
   exists digits dir incl,
     ["--gpu-architecture=sm_86"; "--include-path=./Common"]
       = ["--gpu-architecture=sm_" ++ digits; incl] /\
     format_buffer sm86 (String.length ("--include-path=" ++ dir) + 1)
                        (String.length ("--include-path=" ++ dir))
                        ("--include-path=" ++ dir) = Some incl /\
     (dir <> EmptyString -> exists dir', incl = "--include-path=" ++ dir')).
Proof.
  split.
  - vm_compute. auto 10.
  - apply (compile_option_count sm86 (Some "kernel.cu") ["sample"] 1
             kernel_program 2%nat
             ["--gpu-architecture=sm_86"; "--include-path=./Common"] NVRTC_SUCCESS).
    vm_compute. auto 10.
Defined.

(** C8: on a build without [WIN32], when [requiresCGheaders] is not zero, the
    include-path option handed to the compiler is "--include-path=<directory>"
    without its last character, the directory being the found path of
    cooperative_groups.h cut at the header's name. *)
Theorem include_option_drops_last_char w filename argv flag prog n opts r :
  win32 w = false ->
  flag <> 0 ->
  In (Nvrtc (CompileProgram prog n opts) r)
     (trace (snd (compileFileToCUBIN w filename argv flag initial))) ->
  exists arch incl path found c,
    opts = [arch; incl] /\
    w_sdkFindFilePath w "cooperative_groups.h" (argv0 argv) = Some path /\
    find "cooperative_groups.h" path = Some found /\
    "--include-path=" ++ erase found path = incl ++ String c EmptyString.
Proof.
  intros Hwin Hflag H.
  destruct (compile_call_inv _ _ _ _ _ _ _ _ H)
    as (dev & vmajor & vminor & arch & _ & _ & _ & _ & _ & Hopts).
  destruct Hopts as [[Hz _] | [_ (path & found & incl & Hpath & Hfound & Hincl & ->)]];
    [contradiction|].
  destruct (include_text_other _ _ _ Hwin Hincl) as [c Hc].
  exists arch, incl, path, found, c. auto.
Qed.

Lemma include_option_drops_last_char_witness :
  win32 sm86 = false /\
  1 <> 0 /\
  In (Nvrtc (CompileProgram kernel_program 2
               ["--gpu-architecture=sm_86"; "--include-path=./Common"]) NVRTC_SUCCESS)
     (trace (snd (compileFileToCUBIN sm86 (Some "kernel.cu") ["sample"] 1 initial))) /\
  exists arch incl path found c,
    ["--gpu-architecture=sm_86"; "--include-path=./Common"] = [arch; incl] /\
    w_sdkFindFilePath sm86 "cooperative_groups.h" (argv0 ["sample"]) = Some path /\
    find "cooperative_groups.h" path = Some found /\
    "--include-path=" ++ erase found path = incl ++ String c EmptyString.
Proof.
  split; [reflexivity|]. split; [discriminate|]. split.
  - vm_compute. auto 10.
  - apply (include_option_drops_last_char sm86 (Some "kernel.cu") ["sample"] 1
             kernel_program 2%nat
             ["--gpu-architecture=sm_86"; "--include-path=./Common"] NVRTC_SUCCESS).
    + reflexivity.
    + discriminate.
    + vm_compute. auto 10.
Defined.

(** ** Claims on the outputs and on the order of the compiler calls *)

(** C2: the two output parameters are assigned only when program creation,
    compilation, the size query and the fetch of the binary have all
    succeeded; they then hold the binary of that compilation and its size.
    In every run that does not return they are left unassigned. *)
Theorem outputs_assigned_only_on_success w filename argv flag :
  let run := compileFileToCUBIN w filename argv flag initial in
  (fst run = Returned tt ->
   exists fname contents opts,
     let created := {| prog_src := contents ++ NUL; prog_name := fname;
                       prog_options := None |} in
     let compiled := {| prog_src := contents ++ NUL; prog_name := fname;
                        prog_options := Some opts |} in
     filename = Some fname /\
     w_open w fname = Some contents /\
     w_nvrtcCreateProgram w (contents ++ NUL) fname = NVRTC_SUCCESS /\
     w_nvrtcCompileProgram w created opts = NVRTC_SUCCESS /\
     w_nvrtcGetCUBINSize w compiled = NVRTC_SUCCESS /\
     w_nvrtcGetCUBIN w compiled = NVRTC_SUCCESS /\
     cubinResult (snd run) = Some (w_cubin w compiled) /\
     cubinResultSize (snd run) = Some (String.length (w_cubin w compiled))) /\
  (fst run <> Returned tt ->
   cubinResult (snd run) = None /\ cubinResultSize (snd run) = None).
Proof.
  intros run. subst run.
  run_cases.
  all: split; [intros H; try discriminate H | intros H; try (split; reflexivity)];
    try (exfalso; apply H; reflexivity).
  all: know_results; rewrite ?take_all in *.
  all: do 3 eexists; cbn zeta; cbn [prog_src prog_name].
  all: repeat (split; [eassumption || reflexivity|]); reflexivity.
Qed.

(** On the sample machine the function returns with the binary and its size
    in the output parameters. *)
Example outputs_on_sample_machine :
  let run := compileFileToCUBIN sm86 (Some "kernel.cu") ["sample"] 0 initial in
  fst run = Returned tt /\
  cubinResult (snd run) = Some "ELF" /\
  cubinResultSize (snd run) = Some 3%nat.
Proof.
  vm_compute. auto.
Qed.

(** When compilation fails the process exits with the outputs unassigned. *)
Example outputs_on_compile_error :
  let run := compileFileToCUBIN sm86_compile_error (Some "kernel.cu") ["sample"] 0 initial in
  fst run = Exited 1 /\
  cubinResult (snd run) = None /\
  cubinResultSize (snd run) = None.
Proof.
  vm_compute. auto.
Qed.

(** C5, as the code has it: a run that returns has called the compiler
    library exactly along [pipeline]; every run has called it along a prefix
    of [pipeline], followed, when the process exits on a compiler error, by
    one call of [nvrtcGetErrorString] for the diagnostic. *)
Theorem nvrtc_call_order w filename argv flag :
  let run := compileFileToCUBIN w filename argv flag initial in
  let calls := nvrtc_calls (trace (snd run)) in
  (fst run = Returned tt -> calls = pipeline) /\
  (exists k,
     calls = firstn k pipeline \/
     ((calls = firstn k pipeline ++ [API_nvrtcGetErrorString])%list /\ fst run = Exited 1)).
Proof.
  intros run calls. subst calls run.
  run_cases.
  all: cbn [nvrtc_calls api_of].
  all: split; [intros H; first [discriminate H | reflexivity] |].
  all: first
         [ exists 0%nat; left; reflexivity
         | exists 6%nat; left; reflexivity
         | exists 1%nat; right; split; reflexivity
         | exists 2%nat; right; split; reflexivity
         | exists 3%nat; right; split; reflexivity
         | exists 4%nat; right; split; reflexivity
         | exists 5%nat; right; split; reflexivity
         | exists 6%nat; right; split; reflexivity ].
Qed.

(** C5, as stated, fails when a compiler call fails: the macro then calls
    [nvrtcGetErrorString], which is not one of the six calls of the
    sequence. *)
Lemma error_string_outside_pipeline :
  let run := compileFileToCUBIN sm86_create_error (Some "kernel.cu") ["sample"] 0 initial in
  nvrtc_calls (trace (snd run)) = [API_nvrtcCreateProgram; API_nvrtcGetErrorString] /\
  In API_nvrtcGetErrorString (nvrtc_calls (trace (snd run))) /\
  ~ In API_nvrtcGetErrorString pipeline.
Proof.
  cbv zeta. repeat split.
  - vm_compute. auto.
  - unfold pipeline. cbn [In]. intuition discriminate.
Qed.

(** ** The compilation log *)

Lemma split_at_first (p : Event -> bool) (tr : list Event) :
  forall before e after,
    tr = (before ++ e :: after)%list -> p e = true ->
    (List.length (filter p tr) <= 1)%nat ->
    split_at p tr = Some (before, e, after).
Proof.
  intros before. revert tr.
  induction before as [|x before IH]; intros tr e after -> He Hcount;
    cbn [app split_at].
  - now rewrite He.
  - cbn [app filter] in Hcount.
    destruct (p x) eqn:Hx.
    + exfalso. rewrite filter_app in Hcount. cbn [filter] in Hcount.
      rewrite He in Hcount. cbn [List.length] in Hcount.
      rewrite length_app in Hcount. cbn [List.length] in Hcount. lia.
    + rewrite (IH _ e after eq_refl He Hcount). reflexivity.
Qed.

(** The compiler is asked to compile at most once. *)
Lemma compiled_once w filename argv flag :
  (List.length (filter is_CompileProgram
                  (trace (snd (compileFileToCUBIN w filename argv flag initial))))
   <= 1)%nat.
Proof.
  run_cases.
  all: cbn [filter is_CompileProgram List.length]; lia.
Qed.

(** What follows the compilation call, whatever its result. *)
Lemma after_compile w filename argv flag before p n opts res after :
  let run := compileFileToCUBIN w filename argv flag initial in
  let p' := compiled p opts in
  split_at is_CompileProgram (trace (snd run))
    = Some (before, Nvrtc (CompileProgram p n opts) res, after) ->
  (forall text, ~ In (Cerr text) before) /\
  exists rest1,
    after = Nvrtc (GetProgramLogSize p') (w_nvrtcGetProgramLogSize w p') :: rest1 /\
    (w_nvrtcGetProgramLogSize w p' <> NVRTC_SUCCESS ->
     rest1 = [NvrtcGetErrorString (w_nvrtcGetProgramLogSize w p');
              Cerr (nvrtc_diagnostic w API_nvrtcGetProgramLogSize
                      (w_nvrtcGetProgramLogSize w p'))] /\
     fst run = Exited 1) /\
    (w_nvrtcGetProgramLogSize w p' = NVRTC_SUCCESS ->
     exists rest2,
       rest1 = Nvrtc (GetProgramLog p') (w_nvrtcGetProgramLog w p') :: rest2 /\
       (w_nvrtcGetProgramLog w p' <> NVRTC_SUCCESS ->
        rest2 = [NvrtcGetErrorString (w_nvrtcGetProgramLog w p');
                 Cerr (nvrtc_diagnostic w API_nvrtcGetProgramLog
                         (w_nvrtcGetProgramLog w p'))] /\
        fst run = Exited 1) /\
       (w_nvrtcGetProgramLog w p' = NVRTC_SUCCESS ->
        exists rest3,
          rest2 = (log_block w p' ++ Free Buf_log :: rest3)%list /\
          (res <> NVRTC_SUCCESS ->
           rest3 = [NvrtcGetErrorString res;
                    Cerr (nvrtc_diagnostic w API_nvrtcCompileProgram res)] /\
           fst run = Exited 1) /\
          (res = NVRTC_SUCCESS ->
           exists r' rest', rest3 = Nvrtc (GetCUBINSize p') r' :: rest'))).
Proof.
  intros run p'. subst run p'.
  run_cases.
  all: cbn [split_at is_CompileProgram]; intros H; try discriminate H.
  all: inversion H; subst; clear H.
  all: unfold compiled, log_block, nvrtc_diagnostic; cbn [prog_src prog_name].
  all: know_results; rewrite ?take_all in *.
  all: repeat match goal with
         | H : Nat.leb 2 _ = _ |- _ => rewrite H
         end.
  all: split; [intros text Hin; in_trace Hin|].
  all: shape.
Qed.

(** C10: whatever the result of the compilation, the call of
    [nvrtcCompileProgram] is followed at once by the query of the log size
    and, when that succeeds, by the fetch of the log; once the log is
    fetched it is written to standard error between its two banner lines
    exactly when [strlen] of the log buffer is at least 2, and the log buffer
    is released.  Only then is the result of the compilation looked at: a
    failed compilation ends the run with its diagnostic after the log, a
    successful one goes on to the size query of the binary.  Nothing was
    written to standard error before the compilation. *)
Theorem log_printed_before_compile_check w filename argv flag before p n opts res after :
  let run := compileFileToCUBIN w filename argv flag initial in
  let p' := compiled p opts in
  trace (snd run)
    = (before ++ Nvrtc (CompileProgram p n opts) res :: after)%list ->
  (forall text, ~ In (Cerr text) before) /\
  exists rest1,
    after = Nvrtc (GetProgramLogSize p') (w_nvrtcGetProgramLogSize w p') :: rest1 /\
    (w_nvrtcGetProgramLogSize w p' <> NVRTC_SUCCESS ->
     rest1 = [NvrtcGetErrorString (w_nvrtcGetProgramLogSize w p');
              Cerr (nvrtc_diagnostic w API_nvrtcGetProgramLogSize
                      (w_nvrtcGetProgramLogSize w p'))] /\
     fst run = Exited 1) /\
    (w_nvrtcGetProgramLogSize w p' = NVRTC_SUCCESS ->
     exists rest2,
       rest1 = Nvrtc (GetProgramLog p') (w_nvrtcGetProgramLog w p') :: rest2 /\
       (w_nvrtcGetProgramLog w p' <> NVRTC_SUCCESS ->
        rest2 = [NvrtcGetErrorString (w_nvrtcGetProgramLog w p');
                 Cerr (nvrtc_diagnostic w API_nvrtcGetProgramLog
                         (w_nvrtcGetProgramLog w p'))] /\
        fst run = Exited 1) /\
       (w_nvrtcGetProgramLog w p' = NVRTC_SUCCESS ->
        exists rest3,
          rest2 = (log_block w p' ++ Free Buf_log :: rest3)%list /\
          (res <> NVRTC_SUCCESS ->
           rest3 = [NvrtcGetErrorString res;
                    Cerr (nvrtc_diagnostic w API_nvrtcCompileProgram res)] /\
           fst run = Exited 1) /\
          (res = NVRTC_SUCCESS ->
           exists r' rest', rest3 = Nvrtc (GetCUBINSize p') r' :: rest'))).
Proof.
  intros run p' Htrace.
  apply (after_compile w filename argv flag before p n opts res after).
  apply split_at_first;
    [exact Htrace | reflexivity | apply compiled_once].
Qed.

(** On the sample machine whose compilation fails, the log is fetched and
    printed and the diagnostic of the compilation comes last. *)
Lemma log_printed_before_compile_check_witness :
  let run := compileFileToCUBIN sm86_compile_error (Some "kernel.cu")
               ["sample"] 0 initial in
  let w := sm86_compile_error in
  let p' := compiled kernel_program ["--gpu-architecture=sm_86"] in
  exists before after,
    trace (snd run)
      = (before
         ++ Nvrtc (CompileProgram kernel_program 1 ["--gpu-architecture=sm_86"]) 6
         :: after)%list /\
    after = [Nvrtc (GetProgramLogSize kernel_compiled) NVRTC_SUCCESS;
             Nvrtc (GetProgramLog kernel_compiled) NVRTC_SUCCESS;
             Cerr (LF ++ " compilation log ---" ++ LF);
             Cerr "kernel.cu(1): error: expected a ;";
             Cerr (LF ++ " end log ---" ++ LF);
             Free Buf_log;
             NvrtcGetErrorString 6;
             Cerr (nvrtc_diagnostic w API_nvrtcCompileProgram 6)] /\
    (forall text, ~ In (Cerr text) before) /\
    exists rest1,
      after = Nvrtc (GetProgramLogSize p') (w_nvrtcGetProgramLogSize w p') :: rest1 /\
      (w_nvrtcGetProgramLogSize w p' <> NVRTC_SUCCESS ->
       rest1 = [NvrtcGetErrorString (w_nvrtcGetProgramLogSize w p');
                Cerr (nvrtc_diagnostic w API_nvrtcGetProgramLogSize
                        (w_nvrtcGetProgramLogSize w p'))] /\
       fst run = Exited 1) /\
      (w_nvrtcGetProgramLogSize w p' = NVRTC_SUCCESS ->
       exists rest2,
         rest1 = Nvrtc (GetProgramLog p') (w_nvrtcGetProgramLog w p') :: rest2 /\
         (w_nvrtcGetProgramLog w p' <> NVRTC_SUCCESS ->
          rest2 = [NvrtcGetErrorString (w_nvrtcGetProgramLog w p');
                   Cerr (nvrtc_diagnostic w API_nvrtcGetProgramLog
                           (w_nvrtcGetProgramLog w p'))] /\
          fst run = Exited 1) /\
         (w_nvrtcGetProgramLog w p' = NVRTC_SUCCESS ->
          exists rest3,
            rest2 = (log_block w p' ++ Free Buf_log :: rest3)%list /\
            (6 <> NVRTC_SUCCESS ->
             rest3 = [NvrtcGetErrorString 6;
                      Cerr (nvrtc_diagnostic w API_nvrtcCompileProgram 6)] /\
             fst run = Exited 1) /\
            (6 = NVRTC_SUCCESS ->
             exists r' rest', rest3 = Nvrtc (GetCUBINSize p') r' :: rest'))).
Proof.
  cbv zeta.
  exists (firstn 5 (trace (snd (compileFileToCUBIN sm86_compile_error
                                  (Some "kernel.cu") ["sample"] 0 initial)))),
    (skipn 6 (trace (snd (compileFileToCUBIN sm86_compile_error
                            (Some "kernel.cu") ["sample"] 0 initial)))).
  split; [reflexivity|]. split; [reflexivity|].
  apply (log_printed_before_compile_check sm86_compile_error (Some "kernel.cu")
           ["sample"] 0 _ kernel_program 1%nat ["--gpu-architecture=sm_86"] 6 _).
  reflexivity.
Defined.

(** The log of a failed compilation reaches standard error before the
    diagnostic of the failure. *)
Example log_of_failed_compile_is_printed :
  let run := compileFileToCUBIN sm86_compile_error (Some "kernel.cu") ["sample"] 0 initial in
  exists before,
    trace (snd run) =
      (before ++
       [Cerr (LF ++ " compilation log ---" ++ LF);
        Cerr "kernel.cu(1): error: expected a ;";
        Cerr (LF ++ " end log ---" ++ LF);
        Free Buf_log;
        NvrtcGetErrorString 6;
        Cerr (LF ++ "error: nvrtcCompileProgram failed with error "
                ++ "NVRTC_ERROR_COMPILATION")])%list /\
    fst run = Exited 1.
Proof.
  cbv zeta. eexists. split.
  - vm_compute.
    match goal with
    | |- ?a :: ?b :: ?c :: ?d :: ?e :: ?f :: ?g :: ?h :: _ = _ =>
        instantiate (1 := [a; b; c; d; e; f; g; h])
    end.
    reflexivity.
  - reflexivity.
Qed.

(** ** Failures *)

Lemma no_call_after_failure_spec (tr : list Event) :
  no_call_after_failure tr = true ->
  forall tr1 e tr2 e',
    tr = (tr1 ++ e :: tr2)%list -> failed e = true -> In e' tr2 ->
    is_call e' = false.
Proof.
  intros H tr1. revert tr H.
  induction tr1 as [|x tr1 IH]; intros tr H e tr2 e' -> Hfail Hin;
    cbn [app no_call_after_failure] in H; apply andb_true_iff in H as [Hhd Htl].
  - rewrite Hfail in Hhd. apply negb_true_iff in Hhd.
    destruct (is_call e') eqn:Hcall; [|reflexivity].
    assert (Hex : existsb is_call tr2 = true) by (apply existsb_exists; eauto).
    congruence.
  - eapply IH; eauto.
Qed.

Lemma only_log_fetch_after_failure_spec (tr : list Event) :
  only_log_fetch_after_failure tr = true ->
  forall tr1 e tr2 e',
    tr = (tr1 ++ e :: tr2)%list -> failed e = true -> In e' tr2 ->
    is_call e' = true ->
    is_failed_compile e = true /\ is_log_fetch e' = true.
Proof.
  intros H tr1. revert tr H.
  induction tr1 as [|x tr1 IH]; intros tr H e tr2 e' -> Hfail Hin Hcall;
    cbn [app only_log_fetch_after_failure] in H;
    apply andb_true_iff in H as [Hhd Htl].
  - rewrite Hfail in Hhd.
    rewrite forallb_forall in Hhd. specialize (Hhd e' Hin).
    rewrite Hcall in Hhd. cbn [negb orb] in Hhd.
    now apply andb_true_iff in Hhd.
  - eapply IH; eauto.
Qed.

Lemma ends_with_Cerr_spec (tr : list Event) :
  ends_with_Cerr tr = true ->
  exists before text, tr = (before ++ [Cerr text])%list.
Proof.
  unfold ends_with_Cerr. intros H.
  destruct tr as [|e tr]; [discriminate H|].
  assert (Hne : e :: tr <> []) by discriminate.
  rewrite (app_removelast_last (Free Buf_log) Hne).
  destruct (last (e :: tr) (Free Buf_log)); try discriminate H.
  eauto.
Qed.

(** Rewriting with what is known of the results of the calls. *)
Ltac use_results :=
  know_results;
  repeat match goal with
    | H : (?x =? _)%Z = false |- _ => rewrite !H in *
    end.

(** Case analysis on the results that the run left untested. *)
Ltac settle_results :=
  repeat match goal with
    | H : (?x =? _)%Z = _ |- _ => progress (rewrite !H)
    end;
  repeat match goal with
    | |- context [(?x =? ?c)%Z] => destruct (x =? c)%Z eqn:?
    end;
  cbn.

(** The checks of [compileFileToCUBIN], on the trace. *)
Lemma compile_failure_checks w filename argv flag :
  let run := compileFileToCUBIN w filename argv flag initial in
  only_log_fetch_after_failure (trace (snd run)) = true /\
  (filename = None \/ existsb failed (trace (snd run)) = true ->
   fst run = Exited 1 /\ ends_with_Cerr (trace (snd run)) = true).
Proof.
  intros run. subst run.
  run_cases.
  all: use_results; cbn.
  all: settle_results.
  all: split; [reflexivity | intros [H|H]; try discriminate H; split; reflexivity].
Qed.

(** The checks of [loadCUBIN], on the trace. *)
Lemma load_failure_checks w cubin argv :
  let load := loadCUBIN w cubin argv initial in
  no_call_after_failure (trace (snd load)) = true /\
  (existsb failed (trace (snd load)) = true ->
   fst load = Exited EXIT_FAILURE /\ ends_with_Cerr (trace (snd load)) = true).
Proof.
  intros load. subst load.
  run_cases.
  all: use_results; cbn.
  all: settle_results.
  all: split; [reflexivity | intros H; try discriminate H; split; reflexivity].
Qed.

(** At most one call other than the compilation fails in a run. *)
Lemma other_failure_once w filename argv flag :
  (List.length (filter failed_other
                  (trace (snd (compileFileToCUBIN w filename argv flag initial))))
   <= 1)%nat.
Proof.
  run_cases.
  all: use_results; unfold failed_other; cbn.
  all: settle_results.
  all: lia.
Qed.

(** What follows the failure of a call other than the compilation: the
    diagnostic, after the lookup of the error string when a compiler call
    failed, and nothing else. *)
Lemma after_other_failure w filename argv flag before e after :
  let run := compileFileToCUBIN w filename argv flag initial in
  split_at failed_other (trace (snd run)) = Some (before, e, after) ->
  (exists f,
     e = Open f false /\
     after = [Cerr (LF ++ "error: unable to open " ++ f ++ " for reading!" ++ LF)]) \/
  (exists c r, e = Drv c r /\ after = [Cerr (w_driverDiagnostic w r)]) \/
  (exists c r,
     e = Nvrtc c r /\
     after = [NvrtcGetErrorString r; Cerr (nvrtc_diagnostic w (api_of c) r)]).
Proof.
  intros run. subst run.
  run_cases.
  all: use_results; unfold failed_other; cbn -[append].
  all: settle_results.
  all: intros H; try discriminate H; injection H as <- <- <-.
  all: first
         [ left; eexists; split; reflexivity
         | right; left; do 2 eexists; split; reflexivity
         | right; right; do 2 eexists; split; reflexivity ].
Qed.

(** At most one call fails in a run of [loadCUBIN]. *)
Lemma load_failure_once w cubin argv :
  (List.length (filter failed (trace (snd (loadCUBIN w cubin argv initial)))) <= 1)%nat.
Proof.
  run_cases.
  all: use_results; unfold failed_other; cbn.
  all: settle_results.
  all: lia.
Qed.

(** What follows a failed call of [loadCUBIN]: the diagnostic alone. *)
Lemma after_load_failure w cubin argv before e after :
  split_at failed (trace (snd (loadCUBIN w cubin argv initial)))
    = Some (before, e, after) ->
  exists c r, e = Drv c r /\ after = [Cerr (w_driverDiagnostic w r)].
Proof.
  run_cases.
  all: use_results; unfold failed_other; cbn -[append].
  all: settle_results.
  all: intros H; try discriminate H; injection H as <- <- <-.
  all: do 2 eexists; split; reflexivity.
Qed.

(** C1, as the code has it: when the file name is null, the file cannot be
    opened, or a driver or compiler call does not succeed, the function
    writes a diagnostic to standard error as its last action and the process
    exits with status 1; it does not return.  After a failed opening or a
    failed driver call nothing but the diagnostic follows; after a failed
    compiler call other than the compilation, nothing but the call of
    [nvrtcGetErrorString] and the diagnostic.  The compilation is the
    exception: after a failed [nvrtcCompileProgram] the function goes on to
    call [nvrtcGetProgramLogSize], then [nvrtcGetProgramLog], writes the log,
    releases its buffer, and only then looks up the error string, writes the
    diagnostic of the compilation and exits. *)
Theorem failure_terminates w filename argv flag cubin :
  let run := compileFileToCUBIN w filename argv flag initial in
  let load := loadCUBIN w cubin argv initial in
  ((filename = None \/ exists e, In e (trace (snd run)) /\ failed e = true) ->
   fst run = Exited 1 /\
   exists before text, trace (snd run) = (before ++ [Cerr text])%list) /\
  (forall tr1 e tr2,
     trace (snd run) = (tr1 ++ e :: tr2)%list ->
     failed e = true -> is_failed_compile e = false ->
     (exists f,
        e = Open f false /\
        tr2 = [Cerr (LF ++ "error: unable to open " ++ f ++ " for reading!" ++ LF)]) \/
     (exists c r, e = Drv c r /\ tr2 = [Cerr (w_driverDiagnostic w r)]) \/
     (exists c r,
        e = Nvrtc c r /\
        tr2 = [NvrtcGetErrorString r; Cerr (nvrtc_diagnostic w (api_of c) r)])) /\
  (forall tr1 p n opts r tr2,
     trace (snd run) = (tr1 ++ Nvrtc (CompileProgram p n opts) r :: tr2)%list ->
     r <> NVRTC_SUCCESS ->
     exists rest1,
       tr2 = Nvrtc (GetProgramLogSize (compiled p opts))
               (w_nvrtcGetProgramLogSize w (compiled p opts)) :: rest1 /\
       (w_nvrtcGetProgramLogSize w (compiled p opts) = NVRTC_SUCCESS ->
        exists rest2,
          rest1 = Nvrtc (GetProgramLog (compiled p opts))
                    (w_nvrtcGetProgramLog w (compiled p opts)) :: rest2 /\
          (w_nvrtcGetProgramLog w (compiled p opts) = NVRTC_SUCCESS ->
           rest2 = (log_block w (compiled p opts)
                    ++ [Free Buf_log;
                        NvrtcGetErrorString r;
                        Cerr (nvrtc_diagnostic w API_nvrtcCompileProgram r)])%list))) /\
  ((exists e, In e (trace (snd load)) /\ failed e = true) ->
   fst load = Exited EXIT_FAILURE /\
   exists before text, trace (snd load) = (before ++ [Cerr text])%list) /\
  (forall tr1 e tr2,
     trace (snd load) = (tr1 ++ e :: tr2)%list -> failed e = true ->
     exists c r, e = Drv c r /\ tr2 = [Cerr (w_driverDiagnostic w r)]).
Proof.
  intros run load.
  destruct (compile_failure_checks w filename argv flag) as [_ Hfail].
  destruct (load_failure_checks w cubin argv) as [_ Hfail'].
  fold run in Hfail. fold load in Hfail'.
  split; [|split; [|split; [|split]]].
  - intros H.
    assert (Hb : filename = None \/ existsb failed (trace (snd run)) = true).
    { destruct H as [H | H]; [now left | right]. now apply existsb_exists. }
    split; [apply Hfail, Hb | apply ends_with_Cerr_spec, Hfail, Hb].
  - intros tr1 e tr2 Htrace He Hnot.
    apply (after_other_failure w filename argv flag tr1 e tr2).
    apply split_at_first; [exact Htrace | | apply other_failure_once].
    unfold failed_other. now rewrite He, Hnot.
  - intros tr1 p n opts r tr2 Htrace Hr.
    assert (Hsplit : split_at is_CompileProgram (trace (snd run))
                     = Some (tr1, Nvrtc (CompileProgram p n opts) r, tr2)).
    { apply split_at_first; [exact Htrace | reflexivity | apply compiled_once]. }
    destruct (after_compile w filename argv flag _ _ _ _ _ _ Hsplit)
      as (_ & rest1 & Htr2 & _ & Hsize).
    exists rest1. split; [exact Htr2|].
    intros Hok. destruct (Hsize Hok) as (rest2 & Hrest1 & _ & Hlog).
    exists rest2. split; [exact Hrest1|].
    intros Hok'. destruct (Hlog Hok') as (rest3 & Hrest2 & Hbad & _).
    destruct (Hbad Hr) as [-> _]. exact Hrest2.
  - intros H.
    assert (Hb : existsb failed (trace (snd load)) = true)
      by now apply existsb_exists.
    split; [apply Hfail', Hb | apply ends_with_Cerr_spec, Hfail', Hb].
  - intros tr1 e tr2 Htrace He.
    apply (after_load_failure w cubin argv tr1 e tr2).
    apply split_at_first; [exact Htrace | exact He | apply load_failure_once].
Qed.

Lemma failure_terminates_witness :
  let run := compileFileToCUBIN sm86_compile_error (Some "kernel.cu") ["sample"] 0 initial in
  let w := sm86_compile_error in
  (exists e, In e (trace (snd run)) /\ failed e = true) /\
  (fst run = Exited 1 /\
   exists before text, trace (snd run) = (before ++ [Cerr text])%list) /\
  exists tr1 tr2,
    trace (snd run)
      = (tr1 ++ Nvrtc (CompileProgram kernel_program 1 ["--gpu-architecture=sm_86"]) 6
           :: tr2)%list /\
    6 <> NVRTC_SUCCESS /\
    exists rest1,
      tr2 = Nvrtc (GetProgramLogSize kernel_compiled)
              (w_nvrtcGetProgramLogSize w kernel_compiled) :: rest1 /\
      (w_nvrtcGetProgramLogSize w kernel_compiled = NVRTC_SUCCESS ->
       exists rest2,
         rest1 = Nvrtc (GetProgramLog kernel_compiled)
                   (w_nvrtcGetProgramLog w kernel_compiled) :: rest2 /\
         (w_nvrtcGetProgramLog w kernel_compiled = NVRTC_SUCCESS ->
          rest2 = (log_block w kernel_compiled
                   ++ [Free Buf_log;
                       NvrtcGetErrorString 6;
                       Cerr (nvrtc_diagnostic w API_nvrtcCompileProgram 6)])%list)).
Proof.
  cbv zeta.
  assert (Hfail : exists e,
             In e (trace (snd (compileFileToCUBIN sm86_compile_error
                                 (Some "kernel.cu") ["sample"] 0 initial))) /\
             failed e = true).
  { exists (Nvrtc (CompileProgram kernel_program 1 ["--gpu-architecture=sm_86"]) 6).
    split; [vm_compute; auto 10 | reflexivity]. }
  destruct (failure_terminates sm86_compile_error (Some "kernel.cu") ["sample"] 0 "ELF")
    as (Hexit & _ & Hcompile & _).
  split; [exact Hfail|].
  split; [apply Hexit; right; exact Hfail|].
  exists (firstn 5 (trace (snd (compileFileToCUBIN sm86_compile_error
                                  (Some "kernel.cu") ["sample"] 0 initial)))),
    (skipn 6 (trace (snd (compileFileToCUBIN sm86_compile_error
                            (Some "kernel.cu") ["sample"] 0 initial)))).
  split; [reflexivity|]. split; [discriminate|].
  apply (Hcompile
           (firstn 5 (trace (snd (compileFileToCUBIN sm86_compile_error
                                    (Some "kernel.cu") ["sample"] 0 initial))))
           kernel_program 1%nat ["--gpu-architecture=sm_86"] 6
           (skipn 6 (trace (snd (compileFileToCUBIN sm86_compile_error
                                   (Some "kernel.cu") ["sample"] 0 initial)))));
    [reflexivity | discriminate].
Defined.

(** C1, as stated, fails on a failed compilation: the function goes on past
    the failed [nvrtcCompileProgram] and calls [nvrtcGetProgramLogSize] (and
    then [nvrtcGetProgramLog]) before it exits. *)
Lemma compile_failure_is_followed_by_log_fetch :
  let run := compileFileToCUBIN sm86_compile_error (Some "kernel.cu") ["sample"] 0 initial in
  exists tr1 e tr2 e',
    trace (snd run) = (tr1 ++ e :: tr2)%list /\
    e = Nvrtc (CompileProgram kernel_program 1 ["--gpu-architecture=sm_86"]) 6 /\
    failed e = true /\
    In e' tr2 /\
    e' = Nvrtc (GetProgramLogSize kernel_compiled) NVRTC_SUCCESS /\
    is_call e' = true /\
    no_call_after_failure (trace (snd run)) = false.
Proof.
  cbv zeta.
  set (tr := trace (snd (compileFileToCUBIN sm86_compile_error (Some "kernel.cu")
                           ["sample"] 0 initial))).
  exists (firstn 5 tr), (nth 5 tr (Free Buf_log)), (skipn 6 tr),
    (nth 6 tr (Free Buf_log)).
  vm_compute. repeat split; auto.
Qed.

(** ** loadCUBIN *)

(** When every driver call succeeds [loadCUBIN] returns the module the loader
    produced for the binary. *)
Lemma loadCUBIN_returns w cubin argv dev vmajor vminor name ctx m :
  w_findCudaDeviceDRV w argv = (CUDA_SUCCESS, dev) ->
  w_cuDeviceGetAttribute w CU_DEVICE_ATTRIBUTE_COMPUTE_CAPABILITY_MAJOR dev
    = (CUDA_SUCCESS, vmajor) ->
  w_cuDeviceGetAttribute w CU_DEVICE_ATTRIBUTE_COMPUTE_CAPABILITY_MINOR dev
    = (CUDA_SUCCESS, vminor) ->
  w_cuDeviceGetName w dev = (CUDA_SUCCESS, name) ->
  w_cuInit w 0 = CUDA_SUCCESS ->
  w_cuCtxCreate w 0 dev = (CUDA_SUCCESS, ctx) ->
  w_cuModuleLoadData w ctx cubin = (CUDA_SUCCESS, m) ->
  fst (loadCUBIN w cubin argv initial) = Returned m.
Proof.
  intros Hdev Hmaj Hmin Hname Hinit Hctx Hload.
  unfold_program.
  rewrite Hdev; cbn. rewrite Hmaj; cbn. rewrite Hmin; cbn.
  rewrite Hname; cbn. rewrite Hinit; cbn. rewrite Hctx; cbn.
  rewrite Hload. reflexivity.
Qed.

(** C6: a call of [loadCUBIN] that returns has selected a device, read its
    capability numbers and its name and printed them, initialised the driver
    API, created a context on the selected device, handed the binary to
    [cuModuleLoadData], released the binary once, after the load, and returns
    the module of the loader; the trace holds these steps in this order and
    nothing else. *)
Theorem loadCUBIN_sequence w cubin argv m :
  let load := loadCUBIN w cubin argv initial in
  fst load = Returned m ->
  exists dev vmajor vminor name ctx,
    w_findCudaDeviceDRV w argv = (CUDA_SUCCESS, dev) /\
    w_cuDeviceGetAttribute w CU_DEVICE_ATTRIBUTE_COMPUTE_CAPABILITY_MAJOR dev
      = (CUDA_SUCCESS, vmajor) /\
    w_cuDeviceGetAttribute w CU_DEVICE_ATTRIBUTE_COMPUTE_CAPABILITY_MINOR dev
      = (CUDA_SUCCESS, vminor) /\
    w_cuDeviceGetName w dev = (CUDA_SUCCESS, name) /\
    w_cuInit w 0 = CUDA_SUCCESS /\
    w_cuCtxCreate w 0 dev = (CUDA_SUCCESS, ctx) /\
    w_cuModuleLoadData w ctx cubin = (CUDA_SUCCESS, m) /\
    trace (snd load) =
      [Drv (FindCudaDevice dev) CUDA_SUCCESS;
       Drv (DeviceGetAttribute CU_DEVICE_ATTRIBUTE_COMPUTE_CAPABILITY_MAJOR dev) CUDA_SUCCESS;
       Drv (DeviceGetAttribute CU_DEVICE_ATTRIBUTE_COMPUTE_CAPABILITY_MINOR dev) CUDA_SUCCESS;
       Drv (DeviceGetName dev) CUDA_SUCCESS;
       Cout ("> GPU Device has SM " ++ fmt_d (int_of_Z vmajor) ++ "."
               ++ fmt_d (int_of_Z vminor) ++ " compute capability" ++ LF);
       Drv (Init 0) CUDA_SUCCESS;
       Drv (CtxCreate 0 dev) CUDA_SUCCESS;
       Drv (ModuleLoadData cubin) CUDA_SUCCESS;
       Free Buf_cubin] /\
    filter is_free_cubin (trace (snd load)) = [Free Buf_cubin].
Proof.
  intros load. subst load.
  run_cases.
  all: intros H; try discriminate H.
  all: injection H as <-; know_results.
  all: do 5 eexists; repeat (split; [eassumption || reflexivity|]); reflexivity.
Qed.

Lemma loadCUBIN_sequence_witness :
  fst (loadCUBIN sm86 "ELF" ["sample"] initial) = Returned 7 /\
  exists dev vmajor vminor name ctx,
    w_findCudaDeviceDRV sm86 ["sample"] = (CUDA_SUCCESS, dev) /\
    w_cuDeviceGetAttribute sm86 CU_DEVICE_ATTRIBUTE_COMPUTE_CAPABILITY_MAJOR dev
      = (CUDA_SUCCESS, vmajor) /\
    w_cuDeviceGetAttribute sm86 CU_DEVICE_ATTRIBUTE_COMPUTE_CAPABILITY_MINOR dev
      = (CUDA_SUCCESS, vminor) /\
    w_cuDeviceGetName sm86 dev = (CUDA_SUCCESS, name) /\
    w_cuInit sm86 0 = CUDA_SUCCESS /\
    w_cuCtxCreate sm86 0 dev = (CUDA_SUCCESS, ctx) /\
    w_cuModuleLoadData sm86 ctx "ELF" = (CUDA_SUCCESS, 7) /\
    trace (snd (loadCUBIN sm86 "ELF" ["sample"] initial)) =
      [Drv (FindCudaDevice dev) CUDA_SUCCESS;
       Drv (DeviceGetAttribute CU_DEVICE_ATTRIBUTE_COMPUTE_CAPABILITY_MAJOR dev) CUDA_SUCCESS;
       Drv (DeviceGetAttribute CU_DEVICE_ATTRIBUTE_COMPUTE_CAPABILITY_MINOR dev) CUDA_SUCCESS;
       Drv (DeviceGetName dev) CUDA_SUCCESS;
       Cout ("> GPU Device has SM " ++ fmt_d (int_of_Z vmajor) ++ "."
               ++ fmt_d (int_of_Z vminor) ++ " compute capability" ++ LF);
       Drv (Init 0) CUDA_SUCCESS;
       Drv (CtxCreate 0 dev) CUDA_SUCCESS;
       Drv (ModuleLoadData "ELF") CUDA_SUCCESS;
       Free Buf_cubin] /\
    filter is_free_cubin (trace (snd (loadCUBIN sm86 "ELF" ["sample"] initial)))
      = [Free Buf_cubin].
Proof.
  split.
  - reflexivity.
  - apply (loadCUBIN_sequence sm86 "ELF" ["sample"] 7). reflexivity.
Defined.

(** ** The argument list *)

Lemma findCudaDeviceDRV_same_selection w argv1 argv2 :
  w_findCudaDeviceDRV w argv1 = w_findCudaDeviceDRV w argv2 ->
  findCudaDeviceDRV w argv1 = findCudaDeviceDRV w argv2.
Proof.
  intros H. unfold findCudaDeviceDRV. now rewrite H.
Qed.

Lemma include_option_same_argv0 w argv1 argv2 :
  argv0 argv1 = argv0 argv2 ->
  include_option w argv1 = include_option w argv2.
Proof.
  intros H. unfold include_option. now rewrite H.
Qed.

(** C4, as the code has it: the argument list selects the device and, when
    [requiresCGheaders] is not zero, its first element is also given to the
    SDK's lookup of cooperative_groups.h.  Two argument lists that select the
    same device, and that have the same first element when the flag is not
    zero, give the same run of [compileFileToCUBIN] (same calls, same compile
    options, same outputs, same outcome); two argument lists that select the
    same device give the same run of [loadCUBIN]. *)
Theorem argv_selects_device_and_locates_headers w filename flag cubin argv1 argv2 :
  w_findCudaDeviceDRV w argv1 = w_findCudaDeviceDRV w argv2 ->
  (flag = 0 \/ argv0 argv1 = argv0 argv2 ->
   compileFileToCUBIN w filename argv1 flag initial
     = compileFileToCUBIN w filename argv2 flag initial) /\
  loadCUBIN w cubin argv1 initial = loadCUBIN w cubin argv2 initial.
Proof.
  intros Hsel. split.
  - intros Hcase. unfold compileFileToCUBIN.
    rewrite (findCudaDeviceDRV_same_selection _ _ _ Hsel).
    destruct Hcase as [-> | Harg0].
    + reflexivity.
    + rewrite (include_option_same_argv0 _ _ _ Harg0). reflexivity.
  - unfold loadCUBIN.
    rewrite (findCudaDeviceDRV_same_selection _ _ _ Hsel). reflexivity.
Qed.

Lemma argv_selects_device_and_locates_headers_witness :
  w_findCudaDeviceDRV sm86_data_files ["simpleA"; "-device=0"]
    = w_findCudaDeviceDRV sm86_data_files ["simpleA"] /\
  (1 = 0 \/ argv0 ["simpleA"; "-device=0"] = argv0 ["simpleA"] ->
   compileFileToCUBIN sm86_data_files (Some "kernel.cu") ["simpleA"; "-device=0"] 1 initial
     = compileFileToCUBIN sm86_data_files (Some "kernel.cu") ["simpleA"] 1 initial) /\
  loadCUBIN sm86_data_files "ELF" ["simpleA"; "-device=0"] initial
    = loadCUBIN sm86_data_files "ELF" ["simpleA"] initial.
Proof.
  split.
  - reflexivity.
  - apply (argv_selects_device_and_locates_headers sm86_data_files
             (Some "kernel.cu") 1 "ELF" ["simpleA"; "-device=0"] ["simpleA"]).
    reflexivity.
Defined.

(** C4, as stated, fails when [requiresCGheaders] is not zero: two argument
    lists that select the same device but differ in their first element give
    different compile options. *)
Lemma argv0_changes_compile_options :
  w_findCudaDeviceDRV sm86_data_files ["simpleA"]
    = w_findCudaDeviceDRV sm86_data_files ["simpleB"] /\
  compile_options
    (trace (snd (compileFileToCUBIN sm86_data_files (Some "kernel.cu") ["simpleA"] 1 initial)))
    = Some ["--gpu-architecture=sm_86"; "--include-path=./simpleA_data_files"] /\
  compile_options
    (trace (snd (compileFileToCUBIN sm86_data_files (Some "kernel.cu") ["simpleB"] 1 initial)))
    = Some ["--gpu-architecture=sm_86"; "--include-path=./simpleB_data_files"] /\
  compileFileToCUBIN sm86_data_files (Some "kernel.cu") ["simpleA"] 1 initial
    <> compileFileToCUBIN sm86_data_files (Some "kernel.cu") ["simpleB"] 1 initial.
Proof.
  repeat split.
  intros H.
  apply (f_equal (fun run => compile_options (trace (snd run)))) in H.
  vm_compute in H. discriminate H.
Qed.

(** * Further properties of the two functions *)

(** ** The lookup of cooperative_groups.h *)

(** X1: when [sdkFindFilePath] returns a null pointer the process writes
    "error: header file cooperative_groups.h not found!" to standard error and
    exits with status 1.  The lookup was for cooperative_groups.h with
    [argv[0]], the flag was not zero, nothing else was printed, no compiler
    call was made and the outputs are unassigned. *)
Theorem header_not_found_exits w filename argv flag name exe :
  let run := compileFileToCUBIN w filename argv flag initial in
  In (FindFilePath name exe None) (trace (snd run)) ->
  fst run = Exited 1 /\
  flag <> 0 /\
  name = "cooperative_groups.h" /\
  exe = argv0 argv /\
  (exists before,
     trace (snd run) =
       (before ++ [FindFilePath name exe None;
                   Cerr (LF ++ "error: header file cooperative_groups.h not found!" ++ LF)])%list /\
     forall e, In e before -> is_print e = false) /\
  nvrtc_calls (trace (snd run)) = [] /\
  cubinResult (snd run) = None /\
  cubinResultSize (snd run) = None.
Proof.
  intros run. subst run.
  run_cases.
  all: intros H; in_trace H.
  all: inversion H; subst; clear H; try discriminate.
  all: know_results.
  all: repeat match goal with
         | H : (?x =? 0)%Z = false |- _ => apply Z.eqb_neq in H
         end.
  all: repeat (split; [assumption || reflexivity|]).
  all: split; [|repeat split].
  all: match goal with
       | |- exists b, ?l = _ /\ _ => exists (firstn (List.length l - 2) l)
       end.
  all: split; [reflexivity|].
  all: cbn [List.length Nat.sub firstn]; intros e He; in_trace He; subst e; reflexivity.
Qed.

Lemma header_not_found_exits_witness :
  let run := compileFileToCUBIN sm86_no_header (Some "kernel.cu") ["sample"] 1 initial in
  In (FindFilePath "cooperative_groups.h" (Some "sample") None) (trace (snd run)) /\
  fst run = Exited 1 /\
  1 <> 0 /\
  "cooperative_groups.h" = "cooperative_groups.h" /\
  Some "sample" = argv0 ["sample"] /\
  (exists before,
     trace (snd run) =
       (before ++ [FindFilePath "cooperative_groups.h" (Some "sample") None;
                   Cerr (LF ++ "error: header file cooperative_groups.h not found!" ++ LF)])%list /\
     forall e, In e before -> is_print e = false) /\
  nvrtc_calls (trace (snd run)) = [] /\
  cubinResult (snd run) = None /\
  cubinResultSize (snd run) = None.
Proof.
  cbv zeta. split.
  - vm_compute. auto 10.
  - apply (header_not_found_exits sm86_no_header (Some "kernel.cu") ["sample"] 1
             "cooperative_groups.h" (Some "sample")).
    vm_compute. auto 10.
Defined.

(** X2: when [sdkFindFilePath] returns an empty path the process writes the
    message "CooperativeGroups headers not found, please install it in
    <argv[0]> sample directory.." to standard output, not to standard error,
    and exits with status 1 without a compiler call. *)
Theorem empty_header_path_exits w filename argv flag name exe :
  let run := compileFileToCUBIN w filename argv flag initial in
  In (FindFilePath name exe (Some EmptyString)) (trace (snd run)) ->
  fst run = Exited 1 /\
  (exists before,
     trace (snd run) =
       (before ++ [FindFilePath name exe (Some EmptyString);
                   Cout (LF ++ "CooperativeGroups headers not found, please install it in "
                           ++ fmt_s (argv0 argv) ++ " sample directory.." ++ LF
                           ++ " Exiting.." ++ LF)])%list) /\
  filter is_Cerr (trace (snd run)) = [] /\
  nvrtc_calls (trace (snd run)) = [] /\
  cubinResult (snd run) = None /\
  cubinResultSize (snd run) = None.
Proof.
  intros run. subst run.
  run_cases.
  all: intros H; in_trace H.
  all: inversion H; subst; clear H; try discriminate.
  all: split; [reflexivity|].
  all: split; [|repeat split].
  all: match goal with
       | |- exists b, ?l = _ => exists (firstn (List.length l - 2) l)
       end.
  all: reflexivity.
Qed.

Lemma empty_header_path_exits_witness :
  let run := compileFileToCUBIN sm86_empty_path (Some "kernel.cu") ["sample"] 1 initial in
  In (FindFilePath "cooperative_groups.h" (Some "sample") (Some EmptyString))
     (trace (snd run)) /\
  fst run = Exited 1 /\
  (exists before,
     trace (snd run) =
       (before ++ [FindFilePath "cooperative_groups.h" (Some "sample") (Some EmptyString);
                   Cout (LF ++ "CooperativeGroups headers not found, please install it in "
                           ++ fmt_s (argv0 ["sample"]) ++ " sample directory.." ++ LF
                           ++ " Exiting.." ++ LF)])%list) /\
  filter is_Cerr (trace (snd run)) = [] /\
  nvrtc_calls (trace (snd run)) = [] /\
  cubinResult (snd run) = None /\
  cubinResultSize (snd run) = None.
Proof.
  cbv zeta. split.
  - vm_compute. auto 10.
  - apply (empty_header_path_exits sm86_empty_path (Some "kernel.cu") ["sample"] 1
             "cooperative_groups.h" (Some "sample")).
    vm_compute. auto 10.
Defined.

(** X3: when [sdkFindFilePath] returns a non-empty path in which the name
    cooperative_groups.h does not occur, [std::string::find] gives [npos] and
    [std::string::erase(npos)] throws [std::out_of_range], which the function
    does not catch: control leaves [compileFileToCUBIN] by the exception,
    with no return and no call of [exit].  Up to the throw the function's own
    statements have printed nothing, no compiler call has been made and the
    outputs are unassigned; the lookup is the last thing the function did. *)
Theorem header_name_absent_aborts w filename argv flag name exe path :
  let run := compileFileToCUBIN w filename argv flag initial in
  In (FindFilePath name exe (Some path)) (trace (snd run)) ->
  path <> EmptyString ->
  find "cooperative_groups.h" path = None ->
  fst run = Aborted /\
  (exists before, trace (snd run) = (before ++ [FindFilePath name exe (Some path)])%list) /\
  filter is_print (trace (snd run)) = [] /\
  nvrtc_calls (trace (snd run)) = [] /\
  cubinResult (snd run) = None /\
  cubinResultSize (snd run) = None.
Proof.
  intros run. subst run.
  run_cases.
  all: intros H Hpath Hfind; in_trace H.
  all: inversion H; subst; clear H; try congruence.
  all: try (destruct path; [congruence | discriminate]).
  all: split; [reflexivity|].
  all: split; [|repeat split].
  all: match goal with
       | |- exists b, ?l = _ => exists (firstn (List.length l - 1) l)
       end.
  all: reflexivity.
Qed.

Lemma header_name_absent_aborts_witness :
  let run := compileFileToCUBIN sm86_other_header (Some "kernel.cu") ["sample"] 1 initial in
  In (FindFilePath "cooperative_groups.h" (Some "sample") (Some "./Common/helper_cuda.h"))
     (trace (snd run)) /\
  "./Common/helper_cuda.h" <> EmptyString /\
  find "cooperative_groups.h" "./Common/helper_cuda.h" = None /\
  fst run = Aborted /\
  (exists before,
     trace (snd run) =
       (before ++ [FindFilePath "cooperative_groups.h" (Some "sample")
                     (Some "./Common/helper_cuda.h")])%list) /\
  filter is_print (trace (snd run)) = [] /\
  nvrtc_calls (trace (snd run)) = [] /\
  cubinResult (snd run) = None /\
  cubinResultSize (snd run) = None.
Proof.
  cbv zeta. split; [vm_compute; auto 10|].
  split; [discriminate|]. split; [reflexivity|].
  apply (header_name_absent_aborts sm86_other_header (Some "kernel.cu") ["sample"] 1
           "cooperative_groups.h" (Some "sample") "./Common/helper_cuda.h").
  - vm_compute. auto 10.
  - discriminate.
  - reflexivity.
Defined.

(** ** The directory of the include-path option *)

Lemma substring_prefix (t : string) :
  forall s, substring 0 (String.length t) s = t -> exists rest, s = t ++ rest.
Proof.
  induction t as [|c t IH]; intros s H.
  - now exists s.
  - destruct s as [|c' s']; cbn in H; [discriminate H|].
    injection H as -> H. destruct (IH _ H) as [rest ->]. now exists rest.
Qed.

Lemma substring_occurrence (t : string) :
  t <> EmptyString ->
  forall m s, substring m (String.length t) s = t ->
  exists rest, s = take m s ++ t ++ rest.
Proof.
  intros Ht. induction m as [|m IH]; intros s H.
  - destruct (substring_prefix _ _ H) as [rest ->]. exists rest.
    unfold take. destruct (t ++ rest); reflexivity.
  - destruct s as [|c s].
    + destruct t; [congruence | discriminate H].
    + cbn in H. destruct (IH _ H) as [rest Hrest].
      exists rest. unfold take in *. cbn [substring append].
      now rewrite <- Hrest.
Qed.

Lemma substring_of_prefix (t r : string) :
  substring 0 (String.length t) (t ++ r) = t.
Proof.
  induction t as [|c t IH]; cbn.
  - destruct r; reflexivity.
  - now rewrite IH.
Qed.

Lemma substring_after (a t r : string) :
  substring (String.length a) (String.length t) (a ++ t ++ r) = t.
Proof.
  induction a as [|c a IH]; cbn [String.length append].
  - apply substring_of_prefix.
  - cbn [substring]. exact IH.
Qed.

Lemma length_take_le (s : string) : forall m, (String.length (take m s) <= m)%nat.
Proof.
  unfold take.
  induction s as [|c s IH]; intros [|m]; cbn; try lia.
  specialize (IH m). lia.
Qed.

(** What [find] followed by [erase] keeps of a path: the part before the
    first occurrence of the name. *)
Lemma erase_at_find (name path : string) (found : nat) :
  name <> EmptyString ->
  find name path = Some found ->
  exists rest,
    path = erase found path ++ name ++ rest /\
    forall dir' rest',
      path = dir' ++ name ++ rest' ->
      (String.length (erase found path) <= String.length dir')%nat.
Proof.
  unfold find, erase. intros Hname Hfind.
  destruct (substring_occurrence name Hname found path
              (index_correct1 _ _ _ _ Hfind)) as [rest Hrest].
  exists rest. split; [exact Hrest|].
  intros dir' rest' Hpath.
  pose proof (length_take_le path found) as Hle.
  destruct (Nat.le_gt_cases found (String.length dir')) as [Hok | Hlt]; [lia|].
  exfalso.
  apply (index_correct2 _ _ _ _ Hfind (String.length dir')); [lia | exact Hlt |].
  rewrite Hpath at 1. apply substring_after.
Qed.

(** X4: the directory of the include-path option is the part of the found
    path that precedes the first occurrence of the name cooperative_groups.h:
    the found path is that directory, then the name, then whatever follows,
    and no shorter prefix of the path is followed by the name. *)
Theorem include_directory_precedes_header_name w filename argv flag prog n opts r :
  flag <> 0 ->
  In (Nvrtc (CompileProgram prog n opts) r)
     (trace (snd (compileFileToCUBIN w filename argv flag initial))) ->
  exists arch incl path dir rest,
    w_sdkFindFilePath w "cooperative_groups.h" (argv0 argv) = Some path /\
    path = dir ++ "cooperative_groups.h" ++ rest /\
    (forall dir' rest',
       path = dir' ++ "cooperative_groups.h" ++ rest' ->
       (String.length dir <= String.length dir')%nat) /\
    format_buffer w (String.length ("--include-path=" ++ dir) + 1)
                    (String.length ("--include-path=" ++ dir))
                    ("--include-path=" ++ dir) = Some incl /\
    opts = [arch; incl].
Proof.
  intros Hflag H.
  destruct (compile_call_inv _ _ _ _ _ _ _ _ H)
    as (dev & vmajor & vminor & arch & _ & _ & _ & _ & _ & Hopts).
  destruct Hopts as [[Hz _] | [_ (path & found & incl & Hpath & Hfound & Hincl & ->)]];
    [contradiction|].
  destruct (erase_at_find "cooperative_groups.h" path found) as (rest & Hsplit & Hmin);
    [discriminate | exact Hfound |].
  exists arch, incl, path, (erase found path), rest.
  repeat split; assumption.
Qed.

Lemma include_directory_precedes_header_name_witness :
  1 <> 0 /\
  In (Nvrtc (CompileProgram kernel_program 2
               ["--gpu-architecture=sm_86"; "--include-path=./Common"]) NVRTC_SUCCESS)
     (trace (snd (compileFileToCUBIN sm86 (Some "kernel.cu") ["sample"] 1 initial))) /\
  exists arch incl path dir rest,
    w_sdkFindFilePath sm86 "cooperative_groups.h" (argv0 ["sample"]) = Some path /\
    path = dir ++ "cooperative_groups.h" ++ rest /\
    (forall dir' rest',
       path = dir' ++ "cooperative_groups.h" ++ rest' ->
       (String.length dir <= String.length dir')%nat) /\
    format_buffer sm86 (String.length ("--include-path=" ++ dir) + 1)
                       (String.length ("--include-path=" ++ dir))
                       ("--include-path=" ++ dir) = Some incl /\
    ["--gpu-architecture=sm_86"; "--include-path=./Common"] = [arch; incl].
Proof.
  split; [discriminate|]. split.
  - vm_compute. auto 10.
  - apply (include_directory_precedes_header_name sm86 (Some "kernel.cu") ["sample"] 1
             kernel_program 2%nat
             ["--gpu-architecture=sm_86"; "--include-path=./Common"] NVRTC_SUCCESS).
    + discriminate.
    + vm_compute. auto 10.
Defined.

(** X5: under [WIN32], where [sprintf_s] is given the length of the text plus
    one, the include-path option handed to the compiler is the whole text
    "--include-path=<directory>". *)
Theorem include_option_whole_under_win32 w filename argv flag prog n opts r :
  win32 w = true ->
  flag <> 0 ->
  In (Nvrtc (CompileProgram prog n opts) r)
     (trace (snd (compileFileToCUBIN w filename argv flag initial))) ->
  exists arch path found,
    w_sdkFindFilePath w "cooperative_groups.h" (argv0 argv) = Some path /\
    find "cooperative_groups.h" path = Some found /\
    opts = [arch; "--include-path=" ++ erase found path].
Proof.
  intros Hwin Hflag H.
  destruct (compile_call_inv _ _ _ _ _ _ _ _ H)
    as (dev & vmajor & vminor & arch & _ & _ & _ & _ & _ & Hopts).
  destruct Hopts as [[Hz _] | [_ (path & found & incl & Hpath & Hfound & Hincl & ->)]];
    [contradiction|].
  apply (include_text_windows _ _ _ Hwin) in Hincl. subst incl.
  exists arch, path, found. auto.
Qed.

Lemma include_option_whole_under_win32_witness :
  win32 sm86_windows = true /\
  1 <> 0 /\
  In (Nvrtc (CompileProgram kernel_program 2
               ["--gpu-architecture=sm_86"; "--include-path=./Common/"]) NVRTC_SUCCESS)
     (trace (snd (compileFileToCUBIN sm86_windows (Some "kernel.cu") ["sample"] 1 initial))) /\
  exists arch path found,
    w_sdkFindFilePath sm86_windows "cooperative_groups.h" (argv0 ["sample"]) = Some path /\
    find "cooperative_groups.h" path = Some found /\
    ["--gpu-architecture=sm_86"; "--include-path=./Common/"]
      = [arch; "--include-path=" ++ erase found path].
Proof.
  split; [reflexivity|]. split; [discriminate|]. split.
  - vm_compute. auto 10.
  - apply (include_option_whole_under_win32 sm86_windows (Some "kernel.cu") ["sample"] 1
             kernel_program 2%nat
             ["--gpu-architecture=sm_86"; "--include-path=./Common/"] NVRTC_SUCCESS).
    + reflexivity.
    + discriminate.
    + vm_compute. auto 10.
Defined.

(** ** The diagnostics of the compiler calls *)

(** X6: whenever [compileFileToCUBIN] looks up an error string, it is for
    the result of a compiler call that did not succeed; the run ends there
    with status 1, and the diagnostic it has just written to standard error
    is "error: <name> failed with error <string>" where <name> is the name of
    that very call: every use of [NVRTC_SAFE_CALL] is given the name of the
    call it checks. *)
Theorem diagnostic_names_failed_call w filename argv flag r :
  let run := compileFileToCUBIN w filename argv flag initial in
  In (NvrtcGetErrorString r) (trace (snd run)) ->
  exists c before,
    r <> NVRTC_SUCCESS /\
    In (Nvrtc c r) before /\
    trace (snd run) =
      (before ++ [NvrtcGetErrorString r; Cerr (nvrtc_diagnostic w (api_of c) r)])%list /\
    fst run = Exited 1.
Proof.
  intros run. subst run.
  run_cases.
  all: intros H; in_trace H.
  all: injection H as <-.
  all: repeat match goal with
         | H : negb (?x =? _)%Z = true |- _ =>
             apply negb_true_iff, Z.eqb_neq in H
         | H : negb (?x =? _)%Z = false |- _ => clear H
         end.
  all: match goal with
       | |- exists c b, _ /\ _ /\ ?l = _ /\ _ =>
           match goal with
           | Hne : ?x <> NVRTC_SUCCESS |- _ =>
               match l with
               | context [Nvrtc ?c x] =>
                   exists c, (firstn (List.length l - 2) l);
                   split; [exact Hne|];
                   split; [cbn [List.length Nat.sub firstn In]; auto 20|];
                   split; reflexivity
               end
           end
       end.
Qed.

Lemma diagnostic_names_failed_call_witness :
  let run := compileFileToCUBIN sm86_compile_error (Some "kernel.cu") ["sample"] 0 initial in
  In (NvrtcGetErrorString 6) (trace (snd run)) /\
  exists c before,
    6 <> NVRTC_SUCCESS /\
    In (Nvrtc c 6) before /\
    trace (snd run) =
      (before ++ [NvrtcGetErrorString 6;
                  Cerr (nvrtc_diagnostic sm86_compile_error (api_of c) 6)])%list /\
    fst run = Exited 1.
Proof.
  cbv zeta. split.
  - vm_compute. auto 20.
  - apply (diagnostic_names_failed_call sm86_compile_error (Some "kernel.cu")
             ["sample"] 0 6).
    vm_compute. auto 20.
Defined.

Lemma no_Cerr_filter (tr : list Event) :
  (forall text, ~ In (Cerr text) tr) -> filter is_Cerr tr = [].
Proof.
  induction tr as [|e tr IH]; intros H; [reflexivity|].
  cbn [filter]. destruct (is_Cerr e) eqn:He.
  - destruct e; try discriminate He.
    exfalso. apply (H text). now left.
  - apply IH. intros text Hin. apply (H text). now right.
Qed.

(** X7: a failed compilation does not stop the run: the size of the log is
    queried next, and the log fetched when that query succeeds.  When the
    query of the size fails, or succeeds and the fetch fails, the process
    exits with status 1 on the diagnostic of that log call, which is then the
    only text on standard error: neither the log nor the failure of the
    compilation is reported. *)
Theorem log_failure_hides_compile_failure w filename argv flag p n opts r :
  let run := compileFileToCUBIN w filename argv flag initial in
  let p' := compiled p opts in
  In (Nvrtc (CompileProgram p n opts) r) (trace (snd run)) ->
  r <> NVRTC_SUCCESS ->
  In (Nvrtc (GetProgramLogSize p') (w_nvrtcGetProgramLogSize w p')) (trace (snd run)) /\
  (w_nvrtcGetProgramLogSize w p' <> NVRTC_SUCCESS ->
   fst run = Exited 1 /\
   filter is_Cerr (trace (snd run))
     = [Cerr (nvrtc_diagnostic w API_nvrtcGetProgramLogSize
                (w_nvrtcGetProgramLogSize w p'))]) /\
  (w_nvrtcGetProgramLogSize w p' = NVRTC_SUCCESS ->
   In (Nvrtc (GetProgramLog p') (w_nvrtcGetProgramLog w p')) (trace (snd run)) /\
   (w_nvrtcGetProgramLog w p' <> NVRTC_SUCCESS ->
    fst run = Exited 1 /\
    filter is_Cerr (trace (snd run))
      = [Cerr (nvrtc_diagnostic w API_nvrtcGetProgramLog
                 (w_nvrtcGetProgramLog w p'))])).
Proof.
  intros run p' Hin Hr.
  destruct (in_split _ _ Hin) as (before & after & Htrace).
  assert (Hsplit : split_at is_CompileProgram (trace (snd run))
                   = Some (before, Nvrtc (CompileProgram p n opts) r, after)).
  { apply split_at_first; [exact Htrace | reflexivity | apply compiled_once]. }
  destruct (after_compile w filename argv flag _ _ _ _ _ _ Hsplit)
    as (Hquiet & rest1 & Hafter & Hsizebad & Hsizeok).
  fold run in Hsizebad, Hsizeok. fold p' in Hafter, Hsizebad, Hsizeok.
  apply no_Cerr_filter in Hquiet.
  rewrite Htrace, Hafter. split; [|split].
  - apply in_or_app. right. right. now left.
  - intros Hbad. destruct (Hsizebad Hbad) as [-> Hexit].
    split; [exact Hexit|].
    rewrite filter_app, Hquiet. reflexivity.
  - intros Hok. destruct (Hsizeok Hok) as (rest2 & -> & Hlogbad & _).
    split.
    + apply in_or_app. right. right. right. now left.
    + intros Hbad. destruct (Hlogbad Hbad) as [-> Hexit].
      split; [exact Hexit|].
      rewrite filter_app, Hquiet. reflexivity.
Qed.

Lemma log_failure_hides_compile_failure_witness :
  let run := compileFileToCUBIN sm86_compile_and_log_error (Some "kernel.cu")
               ["sample"] 0 initial in
  let w := sm86_compile_and_log_error in
  In (Nvrtc (CompileProgram kernel_program 1 ["--gpu-architecture=sm_86"]) 6)
     (trace (snd run)) /\
  6 <> NVRTC_SUCCESS /\
  w_nvrtcGetProgramLogSize w kernel_compiled = 4 /\
  In (Nvrtc (GetProgramLogSize kernel_compiled) (w_nvrtcGetProgramLogSize w kernel_compiled))
     (trace (snd run)) /\
  (w_nvrtcGetProgramLogSize w kernel_compiled <> NVRTC_SUCCESS ->
   fst run = Exited 1 /\
   filter is_Cerr (trace (snd run))
     = [Cerr (nvrtc_diagnostic w API_nvrtcGetProgramLogSize
                (w_nvrtcGetProgramLogSize w kernel_compiled))]) /\
  (w_nvrtcGetProgramLogSize w kernel_compiled = NVRTC_SUCCESS ->
   In (Nvrtc (GetProgramLog kernel_compiled) (w_nvrtcGetProgramLog w kernel_compiled))
      (trace (snd run)) /\
   (w_nvrtcGetProgramLog w kernel_compiled <> NVRTC_SUCCESS ->
    fst run = Exited 1 /\
    filter is_Cerr (trace (snd run))
      = [Cerr (nvrtc_diagnostic w API_nvrtcGetProgramLog
                 (w_nvrtcGetProgramLog w kernel_compiled))])).
Proof.
  cbv zeta.
  split; [vm_compute; auto 20|]. split; [discriminate|]. split; [reflexivity|].
  apply (log_failure_hides_compile_failure sm86_compile_and_log_error
           (Some "kernel.cu") ["sample"] 0
           kernel_program 1%nat ["--gpu-architecture=sm_86"] 6).
  - vm_compute. auto 20.
  - discriminate.
Defined.

(** ** Buffers *)

(** X8: a run of [compileFileToCUBIN] that returns has released the log
    buffer once and then, as its last actions, each of the option buffers
    once, in the order of their indices, as many as the count given to the
    compiler; a run that does not return has released at most the log buffer.
    The buffer of the binary is never released: it is handed to the
    caller. *)
Theorem buffers_released w filename argv flag :
  let run := compileFileToCUBIN w filename argv flag initial in
  (fst run = Returned tt ->
   exists p n opts r before,
     In (Nvrtc (CompileProgram p n opts) r) before /\
     trace (snd run)
       = (before ++ map (fun i => Free (Buf_compileParams i)) (seq 0 n))%list /\
     filter is_free before = [Free Buf_log]) /\
  (fst run <> Returned tt ->
   filter is_free (trace (snd run)) = [] \/
   filter is_free (trace (snd run)) = [Free Buf_log]) /\
  ~ In (Free Buf_cubin) (trace (snd run)).
Proof.
  intros run. subst run.
  run_cases.
  all: split; [intros H; try discriminate H
              | split; [intros H; try (exfalso; apply H; reflexivity)
                       | intros H; in_trace H]].
  all: cbn [filter is_free]; auto.
  all: match goal with
       | |- exists p n opts r before, _ /\ ?l = _ /\ _ =>
           match l with
           | context [Nvrtc (CompileProgram ?p ?n ?opts) ?r] =>
               exists p, n, opts, r, (firstn (List.length l - n) l)
           end
       end.
  all: cbn [List.length Nat.sub firstn In map seq app filter is_free]; auto 20.
Qed.

(** ** loadCUBIN *)

(** X10: [loadCUBIN] releases the binary exactly in the runs that return,
    and then as its last action, right after [cuModuleLoadData] has succeeded
    on that binary; on every path that ends the process the binary has not
    been released. *)
Theorem binary_released_iff_loaded w cubin argv :
  let load := loadCUBIN w cubin argv initial in
  (In (Free Buf_cubin) (trace (snd load)) <-> exists m, fst load = Returned m) /\
  (In (Free Buf_cubin) (trace (snd load)) ->
   exists before,
     trace (snd load) =
       (before ++ [Drv (ModuleLoadData cubin) CUDA_SUCCESS; Free Buf_cubin])%list /\
     ~ In (Free Buf_cubin) before).
Proof.
  intros load. subst load.
  run_cases.
  all: know_results.
  all: split; [split; [intros H; in_trace H; eauto
                      | intros [m H]; try discriminate H; cbn [In]; auto 20]
              | intros H; in_trace H].
  all: match goal with
       | |- exists b, ?l = _ /\ _ => exists (firstn (List.length l - 2) l)
       end.
  all: split; [reflexivity|].
  all: cbn [List.length Nat.sub firstn]; intros H'; in_trace H'.
Qed.

(** X11: [loadCUBIN] returns the module [m] exactly when the device
    selection, the two capability queries, the name query, [cuInit],
    [cuCtxCreate] on the selected device and [cuModuleLoadData] on the binary
    all succeed and [m] is the module the loader produced in the created
    context. *)
Theorem loadCUBIN_returns_iff w cubin argv m :
  fst (loadCUBIN w cubin argv initial) = Returned m <->
  exists dev vmajor vminor name ctx,
    w_findCudaDeviceDRV w argv = (CUDA_SUCCESS, dev) /\
    w_cuDeviceGetAttribute w CU_DEVICE_ATTRIBUTE_COMPUTE_CAPABILITY_MAJOR dev
      = (CUDA_SUCCESS, vmajor) /\
    w_cuDeviceGetAttribute w CU_DEVICE_ATTRIBUTE_COMPUTE_CAPABILITY_MINOR dev
      = (CUDA_SUCCESS, vminor) /\
    w_cuDeviceGetName w dev = (CUDA_SUCCESS, name) /\
    w_cuInit w 0 = CUDA_SUCCESS /\
    w_cuCtxCreate w 0 dev = (CUDA_SUCCESS, ctx) /\
    w_cuModuleLoadData w ctx cubin = (CUDA_SUCCESS, m).
Proof.
  split.
  - run_cases.
    all: intros H; try discriminate H.
    all: injection H as <-; know_results.
    all: do 5 eexists; repeat (split; [eassumption || reflexivity|]);
      eassumption || reflexivity.
  - intros (dev & vmajor & vminor & name & ctx & Hdev & Hmaj & Hmin & Hname
            & Hinit & Hctx & Hload).
    eapply loadCUBIN_returns; eassumption.
Qed.

(** X12: each function keeps to its own library.  The only driver calls of
    [compileFileToCUBIN] are the device selection and the capability queries;
    [loadCUBIN] makes no compiler call, opens no file and leaves the two
    output parameters of [compileFileToCUBIN] as they were. *)
Theorem libraries_kept_apart w filename argv flag cubin :
  (forall c r,
     In (Drv c r) (trace (snd (compileFileToCUBIN w filename argv flag initial))) ->
     (exists dev, c = FindCudaDevice dev) \/
     (exists attr dev, c = DeviceGetAttribute attr dev)) /\
  nvrtc_calls (trace (snd (loadCUBIN w cubin argv initial))) = [] /\
  (forall f opened,
     ~ In (Open f opened) (trace (snd (loadCUBIN w cubin argv initial)))) /\
  (forall s,
     cubinResult (snd (loadCUBIN w cubin argv s)) = cubinResult s /\
     cubinResultSize (snd (loadCUBIN w cubin argv s)) = cubinResultSize s).
Proof.
  split; [|split; [|split]].
  - run_cases.
    all: intros c' r' H; in_trace H.
    all: injection H as <- _; eauto.
  - run_cases; reflexivity.
  - run_cases.
    all: intros f opened H; in_trace H.
  - intros s. run_cases; split; reflexivity.
Qed.

(** ** The input file *)

(** X13: the file is dealt with before any library is called.  A null file
    name ends the process at once with its diagnostic; otherwise the first
    action is the opening of the file, and when that fails the process ends
    with the diagnostic that names the file, with no driver or compiler call
    and with status 1. *)
Theorem file_checked_before_any_call w filename argv flag :
  let run := compileFileToCUBIN w filename argv flag initial in
  (filename = None ->
   fst run = Exited 1 /\
   trace (snd run)
     = [Cerr (LF ++ "error: filename is empty for compileFileToCUBIN()!" ++ LF)]) /\
  (forall f,
     filename = Some f ->
     exists rest,
       trace (snd run)
         = Open f (match w_open w f with Some _ => true | None => false end) :: rest /\
       (w_open w f = None ->
        fst run = Exited 1 /\
        rest = [Cerr (LF ++ "error: unable to open " ++ f ++ " for reading!" ++ LF)])).
Proof.
  intros run. subst run.
  run_cases.
  all: split; [intros H; try discriminate H; split; reflexivity|].
  all: intros f Hf; try discriminate Hf; injection Hf as <-.
  all: match goal with
       | H : w_open _ _ = _ |- _ => rewrite H
       end.
  all: eexists; split; [reflexivity|].
  all: intros Hopen; try discriminate Hopen; split; reflexivity.
Qed.

(** ** What is printed of the log *)

(** X15: in a run of [compileFileToCUBIN] that returns, the function's own
    statements have printed nothing but the log: the three texts of the log
    block, on standard error, when [strlen] of the log buffer is at least 2,
    and nothing otherwise. *)
Theorem returning_run_prints_only_the_log w filename argv flag :
  let run := compileFileToCUBIN w filename argv flag initial in
  fst run = Returned tt ->
  exists prog,
    In (Nvrtc (GetProgramLog prog) NVRTC_SUCCESS) (trace (snd run)) /\
    filter is_print (trace (snd run))
      = (if Nat.leb 2 (strlen (w_programLog w prog ++ NUL))
         then [Cerr (LF ++ " compilation log ---" ++ LF);
               Cerr (c_str (w_programLog w prog ++ NUL));
               Cerr (LF ++ " end log ---" ++ LF)]
         else []).
Proof.
  intros run. subst run.
  run_cases.
  all: intros H; try discriminate H; clear H.
  all: know_results; rewrite ?take_all in *.
  all: eexists; split; [cbn [In]; auto 20|].
  all: cbn [filter is_print].
  all: match goal with
       | H : Nat.leb 2 _ = _ |- _ => rewrite H
       end; reflexivity.
Qed.

Lemma returning_run_prints_only_the_log_witness :
  let run := compileFileToCUBIN sm86_warning (Some "kernel.cu") ["sample"] 0 initial in
  fst run = Returned tt /\
  filter is_print (trace (snd run))
    = [Cerr (LF ++ " compilation log ---" ++ LF);
       Cerr "kernel.cu(3): warning: variable was declared but never referenced";
       Cerr (LF ++ " end log ---" ++ LF)] /\
  exists prog,
    In (Nvrtc (GetProgramLog prog) NVRTC_SUCCESS) (trace (snd run)) /\
    filter is_print (trace (snd run))
      = (if Nat.leb 2 (strlen (w_programLog sm86_warning prog ++ NUL))
         then [Cerr (LF ++ " compilation log ---" ++ LF);
               Cerr (c_str (w_programLog sm86_warning prog ++ NUL));
               Cerr (LF ++ " end log ---" ++ LF)]
         else []).
Proof.
  cbv zeta. split; [reflexivity|]. split; [reflexivity|].
  apply (returning_run_prints_only_the_log sm86_warning (Some "kernel.cu") ["sample"] 0).
  reflexivity.
Defined.
